(** * kindle_image_downloader: capture loop and image interceptor

    A shallow embedding of [src/kindle_image_downloader.py].

    Conventions of the embedding.
    - A Python [str] is held as a [string] whose characters are the bytes of
      its UTF-8 encoding, so [s.encode("utf-8")] is [String.list_byte_of_string s];
      the ASCII patterns the script searches for (";", "/", "://", ".")
      never occur inside a multi-byte sequence, so searching the encoding
      finds what searching the code points finds.
    - A Python [bytes] is a [list byte]; [int] is [Z].
    - [set] is [gset string], the files of the disk are a [gmap] from path to
      content, [dict] is an association list in insertion order (the order
      [items()] yields).
    - A call that may raise returns a [Result]. *)

From Stdlib Require Import ZArith List Ascii String DecimalString Lia Bool.
From Stdlib Require Import DecimalN.
From Stdlib.Strings Require Import Byte.
From stdpp Require Import base option list gmap strings.

Local Open Scope Z_scope.

(** ** Exceptions and results *)

Inductive PyExc : Type :=
  | OSError (path : string)          (* a refused filesystem operation *)
  | PlaywrightError (what : string). (* an [Error] of the browser library *)

Inductive Result (A : Type) : Type :=
  | Ok (a : A)
  | Raise (e : PyExc).
Arguments Ok {A} a.
Arguments Raise {A} e.

Definition returned {A} (r : Result A) : option A :=
  match r with Ok a => Some a | Raise _ => None end.

(** ** hashlib.sha256 (FIPS 180-4)

    Words are integers in [0, 2^32); every operation writes out its
    wrap-around. *)

Module SHA256.

Definition w32 : Z := 4294967296.

Definition add32 (a b : Z) : Z := (a + b) mod w32.

Definition rotr (n x : Z) : Z :=
  Z.lor (Z.shiftr x n) (Z.shiftl x (32 - n) mod w32).

Definition Ch (x y z : Z) : Z :=
  Z.lxor (Z.land x y) (Z.land (Z.lxor x (w32 - 1)) z).

Definition Maj (x y z : Z) : Z :=
  Z.lxor (Z.lxor (Z.land x y) (Z.land x z)) (Z.land y z).

Definition bsig0 (x : Z) : Z := Z.lxor (Z.lxor (rotr 2 x) (rotr 13 x)) (rotr 22 x).
Definition bsig1 (x : Z) : Z := Z.lxor (Z.lxor (rotr 6 x) (rotr 11 x)) (rotr 25 x).
Definition ssig0 (x : Z) : Z := Z.lxor (Z.lxor (rotr 7 x) (rotr 18 x)) (Z.shiftr x 3).
Definition ssig1 (x : Z) : Z := Z.lxor (Z.lxor (rotr 17 x) (rotr 19 x)) (Z.shiftr x 10).

(** The constants are fractional parts of roots of the first primes. *)
Definition is_prime (n : nat) : bool :=
  forallb (fun d => negb (Nat.eqb (Nat.modulo n d) 0)) (seq 2 (n - 2)).

Definition primes : list Z := map Z.of_nat (List.filter is_prime (seq 2 310)).

Fixpoint cbrt_bits (bits : nat) (n r : Z) : Z :=
  match bits with
  | O => r
  | S k =>
      let c := r + 2 ^ Z.of_nat k in
      cbrt_bits k n (if c * c * c <=? n then c else r)
  end.

(** The first 32 bits of the fractional part of the cube root of [p]. *)
Definition frac32_cbrt (p : Z) : Z := cbrt_bits 36 (p * 2 ^ 96) 0 mod w32.

(** The first 32 bits of the fractional part of the square root of [p]. *)
Definition frac32_sqrt (p : Z) : Z := Z.sqrt (p * 2 ^ 64) mod w32.

Definition K : list Z := Eval vm_compute in map frac32_cbrt primes.

(** The eight working variables, also the chaining value. *)
Record state : Type := mk_state
  { ha : Z; hb : Z; hc : Z; hd : Z; he : Z; hf : Z; hg : Z; hh : Z }.

Definition H0 : state :=
  Eval vm_compute in
    let r := fun i => frac32_sqrt (nth i primes 0) in
    mk_state (r 0%nat) (r 1%nat) (r 2%nat) (r 3%nat) (r 4%nat) (r 5%nat) (r 6%nat) (r 7%nat).

Definition byte_Z (b : byte) : Z := Z.of_N (Byte.to_N b).

(** Big-endian words of a block. *)
Fixpoint words (bs : list byte) : list Z :=
  match bs with
  | b0 :: b1 :: b2 :: b3 :: rest =>
      (byte_Z b0 * 16777216 + byte_Z b1 * 65536 + byte_Z b2 * 256 + byte_Z b3)
        :: words rest
  | _ => []
  end.

(** The message schedule, kept newest first: [w] holds W[t-1], W[t-2], ... *)
Definition next_w (w : list Z) : Z :=
  add32 (add32 (ssig1 (nth 1 w 0)) (nth 6 w 0))
        (add32 (ssig0 (nth 14 w 0)) (nth 15 w 0)).

Fixpoint extend (n : nat) (w : list Z) : list Z :=
  match n with
  | O => w
  | S n' => extend n' (next_w w :: w)
  end.

Definition schedule (block : list byte) : list Z :=
  rev (extend 48 (rev (words block))).

Definition round (s : state) (kw : Z * Z) : state :=
  let t1 := add32 (add32 (add32 (hh s) (bsig1 (he s))) (Ch (he s) (hf s) (hg s)))
                  (add32 (fst kw) (snd kw)) in
  let t2 := add32 (bsig0 (ha s)) (Maj (ha s) (hb s) (hc s)) in
  mk_state (add32 t1 t2) (ha s) (hb s) (hc s) (add32 (hd s) t1) (he s) (hf s) (hg s).

Definition compress (h : state) (block : list byte) : state :=
  let s := fold_left round (combine K (schedule block)) h in
  mk_state (add32 (ha h) (ha s)) (add32 (hb h) (hb s)) (add32 (hc h) (hc s))
           (add32 (hd h) (hd s)) (add32 (he h) (he s)) (add32 (hf h) (hf s))
           (add32 (hg h) (hg s)) (add32 (hh h) (hh s)).

Definition byte_of_Z (z : Z) : byte :=
  match Byte.of_N (Z.to_N (z mod 256)) with Some b => b | None => x00 end.

(** The 64-bit big-endian length field. *)
Definition length_field (bits : Z) : list byte :=
  map (fun i => byte_of_Z (Z.shiftr bits (8 * i))) [7; 6; 5; 4; 3; 2; 1; 0].

Definition pad (msg : list byte) : list byte :=
  let n := Z.of_nat (length msg) in
  let zeros := Z.to_nat ((55 - n) mod 64) in
  msg ++ [x80] ++ repeat x00 zeros ++ length_field (8 * n).

Fixpoint blocks (fuel : nat) (bs : list byte) (h : state) : state :=
  match fuel with
  | O => h
  | S fuel' =>
      match bs with
      | [] => h
      | _ => blocks fuel' (skipn 64 bs) (compress h (firstn 64 bs))
      end
  end.

Definition digest (msg : list byte) : state :=
  let p := pad msg in blocks (length p) p H0.

Definition hex_digit (z : Z) : ascii :=
  nth (Z.to_nat (z mod 16))
      (String.list_ascii_of_string "0123456789abcdef") "0"%char.

Definition hex8 (w : Z) : string :=
  String (hex_digit (Z.shiftr w 28)) (String (hex_digit (Z.shiftr w 24))
  (String (hex_digit (Z.shiftr w 20)) (String (hex_digit (Z.shiftr w 16))
  (String (hex_digit (Z.shiftr w 12)) (String (hex_digit (Z.shiftr w 8))
  (String (hex_digit (Z.shiftr w 4)) (String (hex_digit w) ""))))))).

Definition hex (s : state) : string :=
  hex8 (ha s) +:+ hex8 (hb s) +:+ hex8 (hc s) +:+ hex8 (hd s) +:+
  hex8 (he s) +:+ hex8 (hf s) +:+ hex8 (hg s) +:+ hex8 (hh s).

End SHA256.

(** A [hashlib.sha256] object: the bytes fed so far. [update] appends,
    [hexdigest] is the lower-case hexadecimal digest of all of them. *)
Record hash_object : Type := { fed : list byte }.

Definition sha256_new : hash_object := {| fed := [] |}.
Definition sha256_of (data : list byte) : hash_object := {| fed := data |}.
Definition update (h : hash_object) (data : list byte) : hash_object :=
  {| fed := fed h ++ data |}.
Definition hexdigest (h : hash_object) : string := SHA256.hex (SHA256.digest (fed h)).

(** ** Python [str] methods and [pathlib] *)

Module Str.

Definition truthy (s : string) : bool := negb (String.eqb s "").

(** [s.startswith(p)] *)
Definition startswith (s p : string) : bool := String.prefix p s.

(** [s.split(sep)] for a one-character separator: never the empty list. *)
Fixpoint split (sep : ascii) (s : string) : list string :=
  match s with
  | "" => [""]
  | String c s' =>
      if Ascii.eqb c sep then "" :: split sep s'
      else match split sep s' with
           | x :: xs => String c x :: xs
           | [] => [String c ""]
           end
  end.

(** The characters [str.strip()] removes are those for which
    [str.isspace()] holds: tab to carriage return, the separators
    0x1c-0x1f, space, U+0085, U+00A0, U+1680, U+2000 to U+200A, U+2028,
    U+2029, U+202F, U+205F and U+3000. A string holds the bytes of its UTF-8
    encoding, so each is listed as the bytes that encode it. *)
Definition utf8 (bytes : list nat) : string :=
  fold_right (fun n s => String (ascii_of_nat n) s) "" bytes.

Definition spaces : list string :=
  map utf8
    [ [9]; [10]; [11]; [12]; [13]; [28]; [29]; [30]; [31]; [32];
      [194; 133]; [194; 160];
      [225; 154; 128];
      [226; 128; 128]; [226; 128; 129]; [226; 128; 130]; [226; 128; 131];
      [226; 128; 132]; [226; 128; 133]; [226; 128; 134]; [226; 128; 135];
      [226; 128; 136]; [226; 128; 137]; [226; 128; 138];
      [226; 128; 168]; [226; 128; 169]; [226; 128; 175];
      [226; 129; 159];
      [227; 128; 128] ]%nat.

(** The number of bytes of the encoding [s] starts with, 0 when it starts
    with none of them. *)
Fixpoint space_width (encodings : list string) (s : string) : nat :=
  match encodings with
  | [] => 0
  | e :: rest => if String.prefix e s then String.length e else space_width rest s
  end.

(** [skip] counts the bytes of a white space character still to be dropped. *)
Fixpoint lstrip_go (encodings : list string) (skip : nat) (s : string) : string :=
  match s with
  | "" => ""
  | String c s' =>
      match skip with
      | S k => lstrip_go encodings k s'
      | O =>
          match space_width encodings s with
          | O => s
          | S k => lstrip_go encodings k s'
          end
      end
  end.

Definition lstrip (s : string) : string := lstrip_go spaces 0 s.

(** From the right the encodings are met last byte first. *)
Definition rstrip (s : string) : string :=
  String.rev (lstrip_go (map String.rev spaces) 0 (String.rev s)).

Definition strip (s : string) : string := rstrip (lstrip s).

(** [s.replace(old, new)] for a non-empty [old]: occurrences are found left
    to right and do not overlap. [skip] counts the characters of a match
    still to be dropped. *)
Fixpoint replace_go (old new : string) (skip : nat) (s : string) : string :=
  match s with
  | "" => ""
  | String c s' =>
      match skip with
      | S k => replace_go old new k s'
      | O =>
          if String.prefix old s
          then new +:+ replace_go old new (String.length old - 1) s'
          else String c (replace_go old new 0 s')
      end
  end.

Definition replace (s old new : string) : string := replace_go old new 0 s.

(** [s.rfind(c)]: the index of the last occurrence. *)
Fixpoint rfind_go (c : ascii) (s : string) (i : nat) (found : option nat) : option nat :=
  match s with
  | "" => found
  | String a s' => rfind_go c s' (S i) (if Ascii.eqb a c then Some i else found)
  end.

Definition rfind (c : ascii) (s : string) : option nat := rfind_go c s 0%nat None.

(** [s[:n]] *)
Definition take (n : nat) (s : string) : string := String.substring 0 n s.

(** [f"{n:04d}"]: decimal, zero-filled to four characters, sign first. *)
Definition decimal (n : Z) : string :=
  NilZero.string_of_uint (N.to_uint (Z.to_N n)).

Definition zfill (width : nat) (s : string) : string :=
  String.string_of_list_ascii (repeat "0"%char (width - String.length s)) +:+ s.

Definition format_04d (n : Z) : string :=
  if n <? 0 then "-" +:+ zfill 3 (decimal (- n)) else zfill 4 (decimal n).

End Str.

Module Path.

(** [PurePosixPath(p).name]: the last component, empty and "." ones dropped. *)
Definition name (p : string) : string :=
  List.last
    (List.filter (fun x => negb (String.eqb x "") && negb (String.eqb x "."))
                 (Str.split "/" p))
    "".

(** [PurePosixPath(p).suffix]: from the last dot of the name, unless that dot
    is its first or its last character. *)
Definition suffix (p : string) : string :=
  let n := name p in
  match Str.rfind "." n with
  | Some i =>
      if ((0 <? i) && (i <? String.length n - 1))%nat
      then String.substring i (String.length n - i) n
      else ""
  | None => ""
  end.

(** [d / f] for a relative [f] and a directory [d] written the way pathlib
    prints one (not empty, no slash at the end). *)
Definition join (d f : string) : string := d +:+ "/" +:+ f.

End Path.

(** ** The world the script acts on *)

Inductive Event : Type :=
  | EvMkdir (path : string)
  | EvWrite (path : string) (data : list byte)  (* a completed file write *)
  | EvGoto (url : string)
  | EvInput (prompt : string)
  | EvFrames (page_index : Z)                   (* [page.frames] is read *)
  | EvKey (key : string)
  | EvWait
  | EvPrint (line : string)
  | EvClose.

(** [saved_hashes] is the one [set] object that [main] creates and every
    interceptor task receives; [disk] maps a path to the file's content;
    [trace] lists what happened, oldest first. *)
Record World : Type := mk_world
  { saved_hashes : gset string;
    disk : gmap string (list byte);
    trace : list Event }.

Definition initial_world : World := mk_world ∅ ∅ [].

(** State with exceptions: a raise keeps the state reached so far. *)
Definition M (A : Type) : Type := World -> Result A * World.

Definition ret {A} (a : A) : M A := fun w => (Ok a, w).

Definition bind {A B} (m : M A) (k : A -> M B) : M B :=
  fun w => match m w with
           | (Ok a, w') => k a w'
           | (Raise e, w') => (Raise e, w')
           end.

Notation "'let*' x ':=' m 'in' k" := (bind m (fun x => k))
  (at level 10, x name, m at level 100, k at level 200).
Notation "m ;;; k" := (bind m (fun _ => k))
  (at level 200, k at level 200).

Definition lift {A} (r : Result A) : M A := fun w => (r, w).

Definition emit (e : Event) : M unit :=
  fun w => (Ok tt, mk_world (saved_hashes w) (disk w) (trace w ++ [e])).

Definition get_saved_hashes : M (gset string) := fun w => (Ok (saved_hashes w), w).

(** [saved_hashes.add(digest)] *)
Definition saved_hashes_add (digest : string) : M unit :=
  fun w => (Ok tt, mk_world ({[digest]} ∪ saved_hashes w) (disk w) (trace w)).

(** ** Responses and frames, as the browser library hands them over *)

Record Request : Type := { resource_type : string }.

Record Response : Type :=
  { request : Request;
    headers : gmap string string;
    url : string;
    body : Result (list byte) }.      (* what [await response.body()] gives *)

Record Frame : Type :=
  { frame_url : string;
    frame_name : string;
    content : Result string }.        (* what [await frame.content()] gives *)

Record Args : Type :=
  { arg_url : string;
    output_dir : string;
    headless : bool;
    max_pages : Z;
    stop_unchanged : Z }.

Record Paths : Type := { html : string; images : string }.

Record LoopVars : Type := { unchanged_count : Z; last_hash : string }.

Inductive LoopExit : Type :=
  | Broke (page_index : Z)   (* left by [break] *)
  | RanOut.                  (* the range was exhausted *)

(** A [dict] of [str] to [str], in insertion order. Assigning to a key that
    is present replaces the value where it stands. *)
Fixpoint dict_set (k v : string) (d : list (string * string)) : list (string * string) :=
  match d with
  | [] => [(k, v)]
  | (k', v') :: d' =>
      if String.eqb k' k then (k', v) :: d' else (k', v') :: dict_set k v d'
  end.

(** [range(lo, hi)] *)
Definition range (lo hi : Z) : list Z :=
  map (fun i => lo + Z.of_nat i) (seq 0 (Z.to_nat (hi - lo))).

(** ** What is read off a trace *)

Definition digest_of (data : list byte) : string := hexdigest (sha256_of data).
Arguments digest_of : simpl never.

Definition is_write_of (digest : string) (e : Event) : bool :=
  match e with
  | EvWrite _ data => String.eqb (digest_of data) digest
  | _ => false
  end.

Definition is_key (e : Event) : bool :=
  match e with EvKey _ => true | _ => false end.

Definition is_frames (e : Event) : bool :=
  match e with EvFrames _ => true | _ => false end.

Definition count (f : Event -> bool) (t : list Event) : nat :=
  length (List.filter f t).

(** Files written whose content has the given digest. *)
Definition files_written (digest : string) (t : list Event) : nat :=
  count (is_write_of digest) t.

(** "ArrowRight" (or any other) key presses. *)
Definition page_turns (t : list Event) : nat := count is_key t.

(** Iterations of the capture loop: each reads [page.frames] once. *)
Definition iterations (t : list Event) : nat := count is_frames t.

Definition content_type_of (r : Response) : string :=
  default "" (headers r !! "content-type").

(** What lines 74-78 let through. *)
Definition is_image_response (r : Response) : Prop :=
  resource_type (request r) = "image" /\
  Str.startswith (content_type_of r) "image/" = true.

(** [content_type.split(";")[0].strip()] *)
Definition media_type (content_type : string) : string :=
  Str.strip (hd "" (Str.split ";" content_type)).




(** [c in s] for a character *)
Fixpoint contains (c : ascii) (s : string) : bool :=
  match s with
  | "" => false
  | String a s' => Ascii.eqb a c || contains c s'
  end.


(** [frame.url or f"frame_{frame.name}"] *)
Definition frame_key (frame : Frame) : string :=
  if Str.truthy (frame_url frame) then frame_url frame else "frame_" +:+ frame_name frame.

(** The markups of a snapshot, concatenated in the order of [items()]. *)
Definition concatenated_markup (contents : list (string * string)) : list byte :=
  concat (map (fun kv => String.list_byte_of_string (snd kv)) contents).

(** The content fingerprint of a snapshot. *)
Definition fingerprint (contents : list (string * string)) : string :=
  hexdigest (sha256_of (concatenated_markup contents)).

(** The hash object after the markups of [items] were fed to it. *)
Definition feed (items : list (string * string)) (combined : hash_object) : hash_object :=
  fold_left (fun h kv => update h (String.list_byte_of_string (snd kv))) items combined.

(** [w'] is [w] after file writes only: same hash set, no key pressed, no
    frame list read. *)
Definition wrote_only (w w' : World) : Prop :=
  saved_hashes w' = saved_hashes w /\
  exists t, trace w' = trace w ++ t /\ page_turns t = 0%nat /\ iterations t = 0%nat.

(** The paths under a directory. *)
Definition in_dir (dir path : string) : Prop := exists name, path = Path.join dir name.

(** No two files under [dir] have the same content digest. *)
Definition distinct_digests (dir : string) (d : gmap string (list byte)) : Prop :=
  forall p1 p2 b1 b2,
    in_dir dir p1 -> in_dir dir p2 ->
    d !! p1 = Some b1 -> d !! p2 = Some b2 ->
    digest_of b1 = digest_of b2 -> p1 = p2.

(** ** Concrete surroundings, for the examples *)

(** An excerpt of CPython's [mimetypes.types_map], read backwards. *)
Definition cpython_guess_extension (t : string) : option string :=
  if String.eqb t "image/png" then Some ".png"
  else if String.eqb t "image/jpeg" then Some ".jpg"
  else if String.eqb t "image/gif" then Some ".gif"
  else if String.eqb t "image/svg+xml" then Some ".svg"
  else if String.eqb t "image/webp" then Some ".webp"
  else None.

Definition fs_accept_all : gmap string (list byte) -> string -> list byte -> bool :=
  fun _ _ _ => true.

Definition fs_refuse_all : gmap string (list byte) -> string -> list byte -> bool :=
  fun _ _ _ => false.

Definition image_response (u content_type : string) (data : list byte) : Response :=
  {| request := {| resource_type := "image" |};
     headers := {[ "content-type" := content_type ]};
     url := u;
     body := Ok data |}.

Definition frame_of (u markup : string) : Frame :=
  {| frame_url := u; frame_name := ""; content := Ok markup |}.

Definition detached_frame (u : string) : Frame :=
  {| frame_url := u; frame_name := ""; content := Raise (PlaywrightError "Frame was detached") |}.

Definition args_of (pages stop : Z) : Args :=
  {| arg_url := "https://read.amazon.com"; output_dir := "output"; headless := false;
     max_pages := pages; stop_unchanged := stop |}.

(** A fifty-byte body, served twice under different URLs and types. *)
Definition body50 : list byte := repeat "x"%byte 50.

Definition served_twice : list Response :=
  [ image_response "https://cdn.example/covers/a.png" "image/png" body50;
    image_response "https://mirror.example/get?id=7" "image/jpeg" body50 ].

(** What an earlier run left in the image directory, and the same bytes
    served again under another type. *)
Definition left_by_earlier_run : gmap string (list byte) :=
  {[ "output/images/77cf12060d47183e.png" := body50 ]}.

Definition served_again : list Response :=
  [ image_response "https://mirror.example/get?id=7" "image/jpeg" body50 ].

Definition empty_twice : list Response :=
  [ image_response "https://cdn.example/covers/a.png" "image/png" [];
    image_response "https://mirror.example/covers/a.png" "image/png" [] ].

(** A reader whose page never changes. *)
Definition same_page : Z -> list Frame :=
  fun _ => [frame_of "https://read.amazon.com/" "<html>A</html>"].

(** A reader with an advertisement frame that is detached when read. *)
Definition with_detached : Z -> list Frame :=
  fun _ => [frame_of "https://read.amazon.com/" "<html>A</html>";
            detached_frame "https://ads.example/slot";
            {| frame_url := ""; frame_name := "reader"; content := Ok "<p>1</p>" |}].

(** Every snapshot differs from the one before: the range is exhausted. *)
Definition counting_pages : Z -> list Frame :=
  fun i => [frame_of "https://read.amazon.com/" (Str.decimal i)].

(** ** Further observers *)

(** Files written, whatever their content. *)
Definition is_write (e : Event) : bool :=
  match e with EvWrite _ _ => true | _ => false end.

Definition writes (t : list Event) : nat := count is_write t.

(** [name.replace("://", "_").replace("/", "_")] *)
Definition safe_name (name : string) : string :=
  Str.replace (Str.replace name "://" "_") "/" "_".

(** [f"page_{page_index:04d}_{safe_name}.html"] and the path it is joined to. *)
Definition html_name (page_index : Z) (name : string) : string :=
  "page_" +:+ Str.format_04d page_index +:+ "_" +:+ safe_name name +:+ ".html".

Definition html_file (page_index : Z) (html_dir name : string) : string :=
  Path.join html_dir (html_name page_index name).

(** A response that claims to be an image and has no content type, and
    whose body cannot be read. *)
Definition untyped_response : Response :=
  {| request := {| resource_type := "image" |};
     headers := ∅;
     url := "https://cdn.example/covers/a.png";
     body := Raise (PlaywrightError "Response body is unavailable") |}.

Section Script.

(** [mimetypes.guess_extension]: the table is the interpreter's and the
    machine's ([/etc/mime.types] and the like), so it is a parameter. *)
Variable mimetypes_guess_extension : string -> option string.

(** Whether the file system carries out a write of [data] at [path], given
    the files it holds. A refused write is one that fails when the file is
    opened (a missing directory, a permission): it raises [OSError] and
    changes nothing. A write that fails once the file is open, and may
    leave it empty or cut short, and markup or names that cannot be
    encoded, are not part of the model; what is said of the disk after a
    failure is said of refusals of this kind. *)
Variable fs_accepts : gmap string (list byte) -> string -> list byte -> bool.

(** What [page.frames] holds, and what reading each frame gives, during the
    iteration of a page index. *)
Variable page_frames : Z -> list Frame.

Definition guess_extension (content_type url : string) : string :=
  let from_url :=
    let suffix := Path.suffix url in
    if Str.truthy suffix then suffix else ".img" in
  if Str.truthy content_type then
    match mimetypes_guess_extension (Str.strip (hd "" (Str.split ";" content_type))) with
    | Some extension => if Str.truthy extension then extension else from_url
    | None => from_url
    end
  else from_url.

(** [Path.write_bytes], and [Path.write_text] after encoding. *)
Definition write_bytes (path : string) (data : list byte) : M unit :=
  fun w =>
    if fs_accepts (disk w) path data
    then (Ok tt, mk_world (saved_hashes w) (<[path := data]> (disk w))
                          (trace w ++ [EvWrite path data]))
    else (Raise (OSError path), w).

Definition encode_utf8 (s : string) : list byte := String.list_byte_of_string s.

Definition write_text (path text : string) : M unit :=
  write_bytes path (encode_utf8 text).

Definition build_paths (output_dir : string) : M Paths :=
  let html_dir := Path.join output_dir "html" in
  let image_dir := Path.join output_dir "images" in
  emit (EvMkdir html_dir) ;;;
  emit (EvMkdir image_dir) ;;;
  ret {| html := html_dir; images := image_dir |}.

(** One interceptor task. The only suspension point is the body read; from
    the digest on nothing is awaited, so the rest runs as one piece. *)
Definition save_response_images (response : Response) (image_dir : string) : M unit :=
  if negb (String.eqb (resource_type (request response)) "image") then ret tt else
  let content_type := default "" (headers response !! "content-type") in
  if negb (Str.startswith content_type "image/") then ret tt else
  let* body := lift (body response) in
  match body with
  | [] => ret tt
  | _ =>
      let digest := hexdigest (sha256_of body) in
      let* saved := get_saved_hashes in
      if decide (digest ∈ saved) then ret tt else
      saved_hashes_add digest ;;;
      let extension := guess_extension content_type (url response) in
      let filename := Str.take 16 digest +:+ extension in
      write_bytes (Path.join image_dir filename) body
  end.

(** The [for name, html in contents.items()] loop of [save_frame_html]. *)
Fixpoint save_frames (page_index : Z) (html_dir : string)
    (items : list (string * string)) (combined : hash_object) : M hash_object :=
  match items with
  | [] => ret combined
  | (name, html) :: rest =>
      let safe_name := Str.replace (Str.replace name "://" "_") "/" "_" in
      let file_path :=
        Path.join html_dir ("page_" +:+ Str.format_04d page_index +:+ "_" +:+ safe_name +:+ ".html") in
      write_text file_path html ;;;
      save_frames page_index html_dir rest (update combined (encode_utf8 html))
  end.

Definition save_frame_html (page_index : Z) (html_dir : string)
    (contents : list (string * string)) : M string :=
  let* combined := save_frames page_index html_dir contents sha256_new in
  ret (hexdigest combined).

(** The [for frame in page.frames] loop of [main]: the content is read
    first; when that raises, the frame is passed over. *)
Fixpoint read_frames (frames : list Frame) (frame_contents : list (string * string))
    : list (string * string) :=
  match frames with
  | [] => frame_contents
  | frame :: rest =>
      match content frame with
      | Ok markup =>
          let key := if Str.truthy (frame_url frame) then frame_url frame
                     else "frame_" +:+ frame_name frame in
          read_frames rest (dict_set key markup frame_contents)
      | Raise _ => read_frames rest frame_contents
      end
  end.

(** Lines 135-139 of [main]: the comparison with the previous fingerprint. *)
Definition compare_hash (current_hash : string) (vars : LoopVars) : LoopVars :=
  if String.eqb current_hash (last_hash vars)
  then {| unchanged_count := unchanged_count vars + 1; last_hash := last_hash vars |}
  else {| unchanged_count := 0; last_hash := current_hash |}.

(** The [for page_index in range(1, args.max_pages + 1)] loop of [main]. *)
Fixpoint capture_loop (args : Args) (paths : Paths) (indices : list Z) (vars : LoopVars)
    : M (LoopExit * LoopVars) :=
  match indices with
  | [] => ret (RanOut, vars)
  | page_index :: rest =>
      emit (EvFrames page_index) ;;;
      let frame_contents := read_frames (page_frames page_index) [] in
      let* current_hash := save_frame_html page_index (html paths) frame_contents in
      let vars' := compare_hash current_hash vars in
      if stop_unchanged args <=? unchanged_count vars' then
        emit (EvPrint "No page changes detected. Stopping capture.") ;;;
        ret (Broke page_index, vars')
      else
        emit (EvKey "ArrowRight") ;;;
        emit EvWait ;;;
        capture_loop args paths rest vars'
  end.

(** [main] from the creation of the output directories on; the interceptor
    tasks run between its steps and are followed separately. The calls that
    do not decide the loop (mkdir, the browser's launch, goto, keyboard and
    wait, print, input, close) are taken to succeed and are kept as events
    of the trace; what the browser itself stores is not on [disk]. *)
Definition main (args : Args) : M (LoopExit * LoopVars) :=
  let* paths := build_paths (output_dir args) in
  emit (EvGoto (arg_url args)) ;;;
  emit (EvPrint "Please sign in to Kindle and open the book in the browser window.") ;;;
  emit (EvInput "When the first page is visible, press Enter to start capture...") ;;;
  let* out := capture_loop args paths (range 1 (max_pages args + 1))
           {| unchanged_count := 0; last_hash := "" |} in
  let* saved := get_saved_hashes in
  emit (EvPrint ("Downloaded " +:+ Str.decimal (Z.of_nat (size saved)) +:+ " images into "
                 +:+ images paths)) ;;;
  emit EvClose ;;;
  ret out.

(** The interceptor tasks of a run, in the order in which their body reads
    complete. A task that raises ends alone; the others go on. *)
Definition run_interceptors (image_dir : string) (responses : list Response) (w : World) : World :=
  fold_left (fun w r => snd (save_response_images r image_dir w)) responses w.

(** Where an image with the given body is written. *)
Definition image_path (r : Response) (image_dir : string) (data : list byte) : string :=
  Path.join image_dir
    (Str.take 16 (digest_of data) +:+ guess_extension (content_type_of r) (url r)).

(** The fingerprint of the snapshot taken in the iteration of a page index. *)
Definition fingerprint_at (page_index : Z) : string :=
  fingerprint (read_frames (page_frames page_index) []).

(** The snapshot of page [i] has the fingerprint of the one before it. *)
Definition unchanged_at (i : Z) : Prop :=
  2 <= i /\ fingerprint_at i = fingerprint_at (i - 1).

(** The [n] snapshots that end with page [k] are each unchanged. *)
Definition stable_run (n k : Z) : Prop :=
  forall j, k - n < j <= k -> unchanged_at j.

(** The loop without its effects: how it is left, with which variables,
    after how many iterations. *)
Fixpoint scan (stop : Z) (indices : list Z) (vars : LoopVars) : LoopExit * LoopVars * nat :=
  match indices with
  | [] => (RanOut, vars, 0%nat)
  | i :: rest =>
      let vars' := compare_hash (fingerprint_at i) vars in
      if stop <=? unchanged_count vars' then (Broke i, vars', 1%nat)
      else let '(e, v, n) := scan stop rest vars' in (e, v, S n)
  end.

(** The loop variables after [n] iterations that did not break. *)
Fixpoint vars_after (n : nat) : LoopVars :=
  match n with
  | O => {| unchanged_count := 0; last_hash := "" |}
  | S m => compare_hash (fingerprint_at (Z.of_nat n)) (vars_after m)
  end.

(** Key presses of a run of the loop that made [n] iterations. *)
Definition turns_of (e : LoopExit) (n : nat) : nat :=
  match e with Broke _ => (n - 1)%nat | RanOut => n end.

(** What [main] does before the loop and after it. *)
Definition opening (args : Args) : list Event :=
  [EvMkdir (Path.join (output_dir args) "html");
   EvMkdir (Path.join (output_dir args) "images");
   EvGoto (arg_url args);
   EvPrint "Please sign in to Kindle and open the book in the browser window.";
   EvInput "When the first page is visible, press Enter to start capture..."].

Definition closing (args : Args) (saved : gset string) : list Event :=
  [EvPrint ("Downloaded " +:+ Str.decimal (Z.of_nat (size saved)) +:+ " images into "
            +:+ Path.join (output_dir args) "images");
   EvClose].

Definition paths_of (args : Args) : Paths :=
  {| html := Path.join (output_dir args) "html";
     images := Path.join (output_dir args) "images" |}.

(** The write of one snapshot entry, and the disk after the writes of
    several. *)
Definition write_event (page_index : Z) (html_dir : string) (entry : string * string) : Event :=
  EvWrite (html_file page_index html_dir (fst entry)) (encode_utf8 (snd entry)).

Definition write_all (page_index : Z) (html_dir : string) (entries : list (string * string))
    (files : gmap string (list byte)) : gmap string (list byte) :=
  fold_left
    (fun files entry =>
       <[html_file page_index html_dir (fst entry) := encode_utf8 (snd entry)]> files)
    entries files.

(** A file of the snapshot of one of the pages [indices]. *)
Definition snapshot_file (html_dir : string) (indices : list Z)
    (path : string) (data : list byte) : Prop :=
  exists i name markup,
    In i indices /\ In (name, markup) (read_frames (page_frames i) []) /\
    path = html_file i html_dir name /\ data = encode_utf8 markup.

(** What the loop may add to the trace, for the pages [indices]. *)
Definition loop_event (html_dir : string) (indices : list Z) (e : Event) : Prop :=
  match e with
  | EvFrames i => In i indices
  | EvWrite path data => snapshot_file html_dir indices path data
  | EvKey key => key = "ArrowRight"
  | EvWait => True
  | EvPrint text => text = "No page changes detected. Stopping capture."
  | _ => False
  end.

(** The declared content type yields no extension. *)
Definition undeclared (content_type : string) : Prop :=
  content_type = "" \/
  mimetypes_guess_extension (media_type content_type) = None \/
  mimetypes_guess_extension (media_type content_type) = Some "".

(** With a file system that never refuses, what is in the set was written. *)
Definition all_written (w : World) : Prop :=
  forall d, d ∈ saved_hashes w -> files_written d (trace w) = 1%nat.

(** What the image interceptor keeps true of the files it writes. *)
Record written_inv (w : World) : Prop :=
  { inv_unwritten : forall d, d ∉ saved_hashes w -> files_written d (trace w) = 0%nat;
    inv_once : forall d, (files_written d (trace w) <= 1)%nat }.

(** What it keeps true of the files under the image directory. *)
Record disk_inv (dir : string) (w : World) : Prop :=
  { inv_disk : forall p b, in_dir dir p -> disk w !! p = Some b ->
                           digest_of b ∈ saved_hashes w;
    inv_distinct : distinct_digests dir (disk w) }.

(** * Properties *)

(** ** The digest *)

Lemma hexdigest_nonempty (h : hash_object) : hexdigest h <> "".
Proof.
  unfold hexdigest, SHA256.hex, SHA256.hex8. cbv [String.append]. discriminate.
Qed.

Lemma hexdigest_length (h : hash_object) : String.length (hexdigest h) = 64%nat.
Proof.
  unfold hexdigest, SHA256.hex, SHA256.hex8. cbv [String.append String.length]. reflexivity.
Qed.

Lemma update_fed (h : hash_object) (data : list byte) :
  fed (update h data) = fed h ++ data.
Proof. reflexivity. Qed.

(** From here on the digest is a black box: nothing below looks inside. *)
Opaque hexdigest.

(** ** Counting on traces *)

Lemma count_app f (t1 t2 : list Event) : count f (t1 ++ t2) = (count f t1 + count f t2)%nat.
Proof. unfold count. rewrite List.filter_app, length_app. reflexivity. Qed.

Lemma count_nil f : count f [] = 0%nat.
Proof. reflexivity. Qed.

Lemma files_written_snoc d t p b :
  files_written d (t ++ [EvWrite p b])
  = (files_written d t + (if String.eqb (digest_of b) d then 1 else 0))%nat.
Proof.
  unfold files_written. rewrite count_app. f_equal.
  unfold count. simpl. destruct (String.eqb (digest_of b) d); reflexivity.
Qed.

(** ** The image interceptor, case by case *)

Lemma save_not_image r dir w :
  ~ is_image_response r -> save_response_images r dir w = (Ok tt, w).
Proof.
  intros Hn. unfold save_response_images.
  destruct (String.eqb (resource_type (request r)) "image") eqn:Ht; simpl; [|reflexivity].
  destruct (Str.startswith _ "image/") eqn:Hc; simpl; [|reflexivity].
  exfalso. apply Hn. split; [by apply String.eqb_eq | exact Hc].
Qed.

Lemma save_body_raises r dir w e :
  is_image_response r -> body r = Raise e -> save_response_images r dir w = (Raise e, w).
Proof.
  intros [Ht Hc] Hb. unfold save_response_images.
  apply String.eqb_eq in Ht. rewrite Ht. simpl.
  unfold content_type_of in Hc. rewrite Hc. simpl.
  unfold bind, lift. rewrite Hb. reflexivity.
Qed.

Lemma save_empty_body r dir w :
  body r = Ok [] -> save_response_images r dir w = (Ok tt, w).
Proof.
  intros Hb. unfold save_response_images.
  destruct (String.eqb _ "image"); simpl; [|reflexivity].
  destruct (Str.startswith _ "image/"); simpl; [|reflexivity].
  unfold bind, lift. rewrite Hb. reflexivity.
Qed.

Lemma save_known_digest r dir w b :
  body r = Ok b -> digest_of b ∈ saved_hashes w ->
  save_response_images r dir w = (Ok tt, w).
Proof.
  intros Hb Hin. unfold save_response_images.
  destruct (String.eqb _ "image"); simpl; [|reflexivity].
  destruct (Str.startswith _ "image/"); simpl; [|reflexivity].
  unfold bind, lift. rewrite Hb. destruct b as [|x b]; [reflexivity|].
  unfold get_saved_hashes. fold (digest_of (x :: b)).
  destruct (decide (digest_of (x :: b) ∈ saved_hashes w)); [reflexivity | contradiction].
Qed.

Lemma save_fresh_digest r dir w b :
  is_image_response r -> body r = Ok b -> b <> [] -> digest_of b ∉ saved_hashes w ->
  save_response_images r dir w
  = if fs_accepts (disk w) (image_path r dir b) b
    then (Ok tt, mk_world ({[digest_of b]} ∪ saved_hashes w)
                          (<[image_path r dir b := b]> (disk w))
                          (trace w ++ [EvWrite (image_path r dir b) b]))
    else (Raise (OSError (image_path r dir b)),
          mk_world ({[digest_of b]} ∪ saved_hashes w) (disk w) (trace w)).
Proof.
  intros [Ht Hc] Hb Hne Hfresh. unfold save_response_images.
  apply String.eqb_eq in Ht. rewrite Ht. simpl.
  unfold content_type_of in Hc. rewrite Hc. simpl.
  unfold bind, lift. rewrite Hb. destruct b as [|x b]; [contradiction|].
  unfold get_saved_hashes. fold (digest_of (x :: b)).
  destruct (decide (digest_of (x :: b) ∈ saved_hashes w)); [contradiction|].
  unfold saved_hashes_add, write_bytes, image_path, content_type_of. simpl.
  destruct (fs_accepts _ _ _); reflexivity.
Qed.

(** Every call is one of the cases above. *)
Lemma save_cases r dir w :
  snd (save_response_images r dir w) = w \/
  exists b, is_image_response r /\ body r = Ok b /\ b <> [] /\
            digest_of b ∉ saved_hashes w.
Proof.
  destruct (String.eqb (resource_type (request r)) "image") eqn:Ht.
  2:{ left. rewrite save_not_image; [reflexivity|]. intros [H _].
      apply String.eqb_eq in H. congruence. }
  destruct (Str.startswith (content_type_of r) "image/") eqn:Hc.
  2:{ left. rewrite save_not_image; [reflexivity|]. intros [_ H]. congruence. }
  assert (Himg : is_image_response r) by (split; [by apply String.eqb_eq | exact Hc]).
  destruct (body r) as [b|e] eqn:Hb.
  2:{ left. by rewrite (save_body_raises _ _ _ e). }
  destruct b as [|x b].
  { left. by rewrite save_empty_body. }
  destruct (decide (digest_of (x :: b) ∈ saved_hashes w)).
  { left. by rewrite (save_known_digest _ _ _ (x :: b)). }
  right. exists (x :: b). done.
Qed.

(** ** The image interceptor keeps its invariant *)

Lemma written_inv_start files : written_inv (mk_world ∅ files []).
Proof.
  split; simpl.
  - reflexivity.
  - intros d. unfold files_written, count. simpl. lia.
Qed.

Lemma written_inv_step r dir w :
  written_inv w -> written_inv (snd (save_response_images r dir w)).
Proof.
  intros [Hun Honce].
  destruct (save_cases r dir w) as [-> | (b & Himg & Hb & Hne & Hfresh)];
    [by split|].
  rewrite (save_fresh_digest r dir w b) by done.
  destruct (fs_accepts _ _ _); simpl; split; simpl.
  - intros d Hd. rewrite files_written_snoc.
    destruct (String.eqb_spec (digest_of b) d) as [Heq|_]; [set_solver|].
    rewrite Hun by set_solver. reflexivity.
  - intros d. rewrite files_written_snoc.
    destruct (String.eqb_spec (digest_of b) d) as [<-|_].
    + rewrite Hun by done. lia.
    + specialize (Honce d). lia.
  - intros d Hd. apply Hun. set_solver.
  - done.
Qed.

Lemma written_inv_run dir rs w :
  written_inv w -> written_inv (run_interceptors dir rs w).
Proof.
  revert w. induction rs as [|r rs IH]; intros w Hw; [done|].
  simpl. apply IH, written_inv_step, Hw.
Qed.

Lemma disk_inv_start dir files :
  (forall p, in_dir dir p -> files !! p = None) -> disk_inv dir (mk_world ∅ files []).
Proof.
  intros Hempty. split; simpl.
  - intros p b Hp H. rewrite (Hempty p Hp) in H. discriminate.
  - intros p1 p2 b1 b2 Hp1 _ H. rewrite (Hempty p1 Hp1) in H. discriminate.
Qed.

Lemma disk_inv_step r dir w :
  disk_inv dir w -> disk_inv dir (snd (save_response_images r dir w)).
Proof.
  intros [Hdisk Hdist].
  destruct (save_cases r dir w) as [-> | (b & Himg & Hb & Hne & Hfresh)];
    [by split|].
  rewrite (save_fresh_digest r dir w b) by done.
  destruct (fs_accepts _ _ _); simpl; split; simpl.
  - intros p x Hp. rewrite lookup_insert. case_decide.
    + intros [= <-]. set_solver.
    + intros H'. apply (Hdisk p x Hp) in H'. set_solver.
  - intros p1 p2 b1 b2 Hp1 Hp2. rewrite !lookup_insert.
    repeat case_decide; subst; try done.
    + intros [= <-] H2 Heq. apply (Hdisk p2 b2 Hp2) in H2. congruence.
    + intros H1 [= <-] Heq. apply (Hdisk p1 b1 Hp1) in H1. congruence.
    + by apply Hdist.
  - intros p x Hp H'. apply (Hdisk p x Hp) in H'. set_solver.
  - done.
Qed.

Lemma disk_inv_run dir rs w :
  disk_inv dir w -> disk_inv dir (run_interceptors dir rs w).
Proof.
  revert w. induction rs as [|r rs IH]; intros w Hw; [done|].
  simpl. apply IH, disk_inv_step, Hw.
Qed.

(** The hash set only grows. *)
Lemma saved_hashes_step r dir w :
  saved_hashes w ⊆ saved_hashes (snd (save_response_images r dir w)).
Proof.
  destruct (save_cases r dir w) as [-> | (b & Himg & Hb & Hne & Hfresh)]; [done|].
  rewrite (save_fresh_digest r dir w b) by done.
  destruct (fs_accepts _ _ _); simpl; set_solver.
Qed.

Lemma saved_hashes_run dir rs w :
  saved_hashes w ⊆ saved_hashes (run_interceptors dir rs w).
Proof.
  revert w. induction rs as [|r rs IH]; intros w; [done|].
  simpl. etrans; [apply (saved_hashes_step r dir)|apply IH].
Qed.

(** After an image with a non-empty body went through, its digest is in
    the set, whether or not the file could be written. *)
Lemma saved_after_step r dir w b :
  is_image_response r -> body r = Ok b -> b <> [] ->
  digest_of b ∈ saved_hashes (snd (save_response_images r dir w)).
Proof.
  intros Himg Hb Hne.
  destruct (decide (digest_of b ∈ saved_hashes w)) as [Hin|Hout].
  - by rewrite (save_known_digest r dir w b).
  - rewrite (save_fresh_digest r dir w b) by done.
    destruct (fs_accepts _ _ _); simpl; set_solver.
Qed.

Lemma saved_after_run dir rs w r b :
  r ∈ rs -> is_image_response r -> body r = Ok b -> b <> [] ->
  digest_of b ∈ saved_hashes (run_interceptors dir rs w).
Proof.
  intros Hin Himg Hb Hne. revert w.
  induction rs as [|r' rs IH]; intros w; [by apply elem_of_nil in Hin|].
  apply elem_of_cons in Hin as [<- | Hin]; simpl.
  - apply saved_hashes_run. by apply saved_after_step.
  - by apply IH.
Qed.

Lemma all_written_step r dir w :
  (forall d p x, fs_accepts d p x = true) ->
  written_inv w -> all_written w ->
  all_written (snd (save_response_images r dir w)).
Proof.
  intros Hfs Hinv Hw.
  destruct (save_cases r dir w) as [-> | (b & Himg & Hb & Hne & Hfresh)]; [done|].
  rewrite (save_fresh_digest r dir w b) by done. rewrite Hfs. simpl.
  intros d Hmem. simpl in *. rewrite files_written_snoc.
  destruct (String.eqb_spec (digest_of b) d) as [Heq|Hneq].
  - subst d. rewrite (inv_unwritten w Hinv) by done. reflexivity.
  - apply elem_of_union in Hmem as [Hs|Hs].
    + apply elem_of_singleton in Hs. congruence.
    + rewrite (Hw d Hs). reflexivity.
Qed.

Lemma all_written_run dir rs w :
  (forall d p x, fs_accepts d p x = true) ->
  written_inv w -> all_written w ->
  all_written (run_interceptors dir rs w).
Proof.
  intros Hfs. revert w. induction rs as [|r rs IH]; intros w Hinv Hw; [done|].
  simpl. apply IH; [by apply written_inv_step | by apply all_written_step].
Qed.

(** ** Claims about the image interceptor *)

(** C1, as amended. Over a whole run, from the empty hash set, whatever
    the disk holds, and for the responses taken in any order and under any
    URLs: no content digest is ever written twice. When the file system
    refuses no write, every image response with a non-empty body has
    exactly one file written with the digest of its body, so that responses
    with the same bytes share that one file; and when, in addition, the
    image directory holds no file at the start, no two files in it have the
    same content digest. *)
Theorem dedup_one_file_per_digest (image_dir : string) (responses : list Response)
    (files : gmap string (list byte)) :
  let w := run_interceptors image_dir responses (mk_world ∅ files []) in
  (forall d, (files_written d (trace w) <= 1)%nat) /\
  ((forall d p x, fs_accepts d p x = true) ->
   (forall r b, r ∈ responses -> is_image_response r -> body r = Ok b -> b <> [] ->
                files_written (digest_of b) (trace w) = 1%nat) /\
   ((forall p, in_dir image_dir p -> files !! p = None) ->
    distinct_digests image_dir (disk w))).
Proof.
  intros w.
  pose proof (written_inv_run image_dir responses _ (written_inv_start files)) as Hinv.
  split; [apply Hinv|].
  intros Hfs. split.
  - intros r b Hin Himg Hb Hne.
    apply (all_written_run image_dir responses (mk_world ∅ files []) Hfs
             (written_inv_start files)).
    + intros d Hd. simpl in Hd. set_solver.
    + by apply (saved_after_run _ _ _ r).
  - intros Hempty.
    apply (disk_inv_run image_dir responses _ (disk_inv_start image_dir files Hempty)).
Qed.

(** C8. A response whose request is classified as an image and whose body
    is empty is passed over: the task returns normally, and the hash set,
    the disk and the trace (so the files written) are what they were. *)
Theorem empty_body_changes_nothing (r : Response) (image_dir : string) (w : World) :
  resource_type (request r) = "image" ->
  body r = Ok [] ->
  save_response_images r image_dir w = (Ok tt, w) /\
  saved_hashes (snd (save_response_images r image_dir w)) = saved_hashes w /\
  disk (snd (save_response_images r image_dir w)) = disk w /\
  trace (snd (save_response_images r image_dir w)) = trace w.
Proof.
  intros _ Hb. rewrite (save_empty_body r image_dir w Hb). done.
Qed.

(** ** The file extension *)

Lemma append_cons a s t : String a s +:+ t = String a (s +:+ t).
Proof. reflexivity. Qed.



Lemma split_without_sep sep mt :
  contains sep mt = false -> Str.split sep mt = [mt].
Proof.
  induction mt as [|a mt IH]; intros Hc; [reflexivity|].
  simpl in Hc. apply orb_false_iff in Hc as [Ha Hc].
  simpl. rewrite Ha, (IH Hc). reflexivity.
Qed.


Lemma truthy_false s : s = "" -> Str.truthy s = false.
Proof. by intros ->. Qed.


(** When the declared type gives nothing, the URL decides. *)
Lemma guess_extension_undeclared ct u :
  ct = "" \/ mimetypes_guess_extension (media_type ct) = None
          \/ mimetypes_guess_extension (media_type ct) = Some "" ->
  guess_extension ct u = if Str.truthy (Path.suffix u) then Path.suffix u else ".img".
Proof.
  intros H. unfold guess_extension. fold (media_type ct).
  destruct H as [-> | [H | H]]; [reflexivity | |];
    destruct (Str.truthy ct); try reflexivity; by rewrite H.
Qed.



(** ** Saving a snapshot *)

Lemma wrote_only_refl w : wrote_only w w.
Proof. split; [done|]. exists []. by rewrite app_nil_r. Qed.

Lemma wrote_only_trans w1 w2 w3 : wrote_only w1 w2 -> wrote_only w2 w3 -> wrote_only w1 w3.
Proof.
  intros [Hs1 (t1 & Ht1 & Hk1 & Hi1)] [Hs2 (t2 & Ht2 & Hk2 & Hi2)].
  split; [congruence|]. exists (t1 ++ t2). split; [by rewrite Ht2, Ht1, app_assoc|].
  unfold page_turns, iterations in *. rewrite !count_app. lia.
Qed.

Lemma write_bytes_cases path data w :
  (write_bytes path data w
   = (Ok tt, mk_world (saved_hashes w) (<[path := data]> (disk w))
                      (trace w ++ [EvWrite path data])) /\
   fs_accepts (disk w) path data = true) \/
  (write_bytes path data w = (Raise (OSError path), w) /\
   fs_accepts (disk w) path data = false).
Proof. unfold write_bytes. destruct (fs_accepts _ _ _); auto. Qed.

Lemma write_bytes_wrote_only path data w :
  wrote_only w (snd (write_bytes path data w)).
Proof.
  destruct (write_bytes_cases path data w) as [[-> _] | [-> _]];
    [|apply wrote_only_refl].
  split; [done|]. by exists [EvWrite path data].
Qed.

Lemma feed_fed items combined :
  fed (feed items combined) = fed combined ++ concatenated_markup items.
Proof.
  revert combined. induction items as [|[k v] items IH]; intros combined; simpl.
  - by rewrite app_nil_r.
  - rewrite IH, update_fed. unfold concatenated_markup. simpl. by rewrite app_assoc.
Qed.

Lemma hexdigest_feed items : hexdigest (feed items sha256_new) = fingerprint items.
Proof.
  unfold fingerprint. f_equal.
  pose proof (feed_fed items sha256_new) as H.
  destruct (feed items sha256_new) as [bs]. simpl in H. by rewrite H.
Qed.

Lemma save_frames_spec page_index html_dir items combined w :
  wrote_only w (snd (save_frames page_index html_dir items combined w)) /\
  (fst (save_frames page_index html_dir items combined w) = Ok (feed items combined) \/
   exists p, fst (save_frames page_index html_dir items combined w) = Raise (OSError p)) /\
  ((forall d p x, fs_accepts d p x = true) ->
   fst (save_frames page_index html_dir items combined w) = Ok (feed items combined)).
Proof.
  revert combined w. induction items as [|[name markup] items IH]; intros combined w.
  - simpl. split; [apply wrote_only_refl|]. split; [by left|done].
  - cbn [save_frames]. unfold bind, write_text.
    set (path := Path.join html_dir _).
    pose proof (write_bytes_wrote_only path (encode_utf8 markup) w) as Hw.
    destruct (write_bytes_cases path (encode_utf8 markup) w) as [[Heq Hfs] | [Heq Hfs]];
      rewrite Heq in *; cbn [fst snd] in *.
    + set (w1 := mk_world _ _ _) in *.
      destruct (IH (update combined (encode_utf8 markup)) w1) as (H1 & H2 & H3).
      split; [by eapply wrote_only_trans|]. split; [exact H2|]. intros Hall. by apply H3.
    + split; [apply wrote_only_refl|]. split; [right; by exists path|].
      intros Hall. rewrite Hall in Hfs. discriminate.
Qed.

Lemma save_frame_html_spec page_index html_dir contents w :
  wrote_only w (snd (save_frame_html page_index html_dir contents w)) /\
  (fst (save_frame_html page_index html_dir contents w) = Ok (fingerprint contents) \/
   exists p, fst (save_frame_html page_index html_dir contents w) = Raise (OSError p)) /\
  ((forall d p x, fs_accepts d p x = true) ->
   fst (save_frame_html page_index html_dir contents w) = Ok (fingerprint contents)).
Proof.
  destruct (save_frames_spec page_index html_dir contents sha256_new w) as (H1 & H2 & H3).
  unfold save_frame_html, bind.
  destruct (save_frames page_index html_dir contents sha256_new w) as [[h|e] w'];
    cbn [fst snd ret] in *.
  - split; [exact H1|]. rewrite <- hexdigest_feed.
    assert (Hh : h = feed contents sha256_new).
    { destruct H2 as [H2 | [p H2]]; congruence. }
    subst h. split; [by left|done].
  - split; [exact H1|]. split.
    + right. destruct H2 as [H2 | [p H2]]; [discriminate|].
      injection H2 as ->. by exists p.
    + intros Hall. specialize (H3 Hall). discriminate.
Qed.

(** ** Claims about the fingerprint *)

Lemma concatenated_markup_values contents :
  concatenated_markup contents
  = concat (map String.list_byte_of_string (map snd contents)).
Proof. unfold concatenated_markup. by rewrite map_map. Qed.

(** Two calls that return, on snapshots with the same fingerprint, return
    the same value. *)
Lemma save_frame_html_agree i1 i2 d1 d2 c1 c2 w1 w2 h1 h2 :
  fingerprint c1 = fingerprint c2 ->
  fst (save_frame_html i1 d1 c1 w1) = Ok h1 ->
  fst (save_frame_html i2 d2 c2 w2) = Ok h2 -> h1 = h2.
Proof.
  intros Hfp E1 E2.
  destruct (save_frame_html_spec i1 d1 c1 w1) as (_ & [H1 | [p H1]] & _); [|congruence].
  destruct (save_frame_html_spec i2 d2 c2 w2) as (_ & [H2 | [p H2]] & _); [|congruence].
  congruence.
Qed.

(** C5. The fingerprint is a function of the concatenated markup alone:
    two calls of [save_frame_html] on snapshots whose markups concatenate to
    the same bytes return the same fingerprint, whatever the page indices,
    the directories and the state of the disk; and they do return one when
    the file system accepts the writes. *)
Theorem fingerprint_deterministic
    (i1 i2 : Z) (d1 d2 : string) (c1 c2 : list (string * string)) (w1 w2 : World) :
  concatenated_markup c1 = concatenated_markup c2 ->
  (forall h1 h2,
     fst (save_frame_html i1 d1 c1 w1) = Ok h1 ->
     fst (save_frame_html i2 d2 c2 w2) = Ok h2 -> h1 = h2) /\
  ((forall d p x, fs_accepts d p x = true) ->
   exists h, fst (save_frame_html i1 d1 c1 w1) = Ok h /\
             fst (save_frame_html i2 d2 c2 w2) = Ok h).
Proof.
  intros Heq.
  assert (Hfp : fingerprint c1 = fingerprint c2) by (unfold fingerprint; by rewrite Heq).
  split.
  - intros h1 h2. by apply save_frame_html_agree.
  - intros Hall. exists (fingerprint c1).
    destruct (save_frame_html_spec i1 d1 c1 w1) as (_ & _ & A1).
    destruct (save_frame_html_spec i2 d2 c2 w2) as (_ & _ & A2).
    split; [by apply A1|]. rewrite Hfp. by apply A2.
Qed.

(** C9. The frame identifiers do not enter the fingerprint: snapshots with
    the same markups in the same order have the same fingerprint whatever
    their keys, [save_frame_html] returns the same value for both, and the
    comparison of lines 135-136 counts the second one as unchanged. *)
Theorem fingerprint_ignores_identifiers (c1 c2 : list (string * string)) :
  map snd c1 = map snd c2 ->
  fingerprint c1 = fingerprint c2 /\
  (forall i1 i2 d1 d2 w1 w2 h1 h2,
     fst (save_frame_html i1 d1 c1 w1) = Ok h1 ->
     fst (save_frame_html i2 d2 c2 w2) = Ok h2 -> h1 = h2) /\
  (forall n, compare_hash (fingerprint c2)
               {| unchanged_count := n; last_hash := fingerprint c1 |}
             = {| unchanged_count := n + 1; last_hash := fingerprint c1 |}).
Proof.
  intros Hv.
  assert (Hcm : concatenated_markup c1 = concatenated_markup c2)
    by (by rewrite !concatenated_markup_values, Hv).
  assert (Hfp : fingerprint c1 = fingerprint c2) by (unfold fingerprint; by rewrite Hcm).
  split; [exact Hfp|]. split.
  - intros i1 i2 d1 d2 w1 w2 h1 h2. by apply save_frame_html_agree.
  - intros n. unfold compare_hash. cbn [last_hash unchanged_count].
    by rewrite Hfp, String.eqb_refl.
Qed.

(** ** Reading the frames *)

Lemma read_frames_app l1 l2 d :
  read_frames (l1 ++ l2) d = read_frames l2 (read_frames l1 d).
Proof.
  revert d. induction l1 as [|f l1 IH]; intros d; [reflexivity|].
  simpl. destruct (content f); apply IH.
Qed.

Lemma read_frames_skips before f after e d :
  content f = Raise e ->
  read_frames (before ++ f :: after) d = read_frames (before ++ after) d.
Proof.
  intros He. rewrite !read_frames_app. simpl. by rewrite He.
Qed.

(** ** The capture loop *)

Lemma count_zero_In f t e : count f t = 0%nat -> In e t -> f e = false.
Proof.
  unfold count. induction t as [|a t IH]; intros H Hin; [done|].
  simpl in H. destruct (f a) eqn:Ha; [discriminate|].
  destruct Hin as [-> | Hin]; [exact Ha | by apply IH].
Qed.

Lemma capture_loop_cons args paths i rest vars w :
  capture_loop args paths (i :: rest) vars w
  = match save_frame_html i (html paths) (read_frames (page_frames i) [])
            (mk_world (saved_hashes w) (disk w) (trace w ++ [EvFrames i])) with
    | (Ok h, w2) =>
        if stop_unchanged args <=? unchanged_count (compare_hash h vars)
        then (Ok (Broke i, compare_hash h vars),
              mk_world (saved_hashes w2) (disk w2)
                (trace w2 ++ [EvPrint "No page changes detected. Stopping capture."]))
        else capture_loop args paths rest (compare_hash h vars)
               (mk_world (saved_hashes w2) (disk w2)
                  ((trace w2 ++ [EvKey "ArrowRight"]) ++ [EvWait]))
    | (Raise e, w2) => (Raise e, w2)
    end.
Proof.
  cbn [capture_loop]. unfold bind at 1. unfold emit at 1.
  unfold bind at 1.
  destruct (save_frame_html _ _ _ _) as [[h|e] w2]; [|reflexivity].
  destruct (stop_unchanged args <=? _); reflexivity.
Qed.

Lemma scan_broke_pos stop indices vars k v n :
  scan stop indices vars = (Broke k, v, n) -> (1 <= n)%nat.
Proof.
  destruct indices as [|i rest]; simpl; [discriminate|].
  destruct (stop <=? _).
  - intros [= _ _ <-]. lia.
  - destruct (scan stop rest _) as [[e' v'] n']. intros [= _ _ <-]. lia.
Qed.

(** What a run of the loop does to the world, whatever the file system
    does, and how its result follows [scan]. *)
Lemma capture_loop_spec args paths indices vars w :
  saved_hashes (snd (capture_loop args paths indices vars w)) = saved_hashes w /\
  exists t,
    trace (snd (capture_loop args paths indices vars w)) = trace w ++ t /\
    (iterations t <= length indices)%nat /\
    (forall i, In (EvFrames i) t -> In i indices) /\
    (forall e v, fst (capture_loop args paths indices vars w) = Ok (e, v) ->
       scan (stop_unchanged args) indices vars = (e, v, iterations t) /\
       page_turns t = turns_of e (iterations t)) /\
    ((forall d p x, fs_accepts d p x = true) ->
     exists e v, fst (capture_loop args paths indices vars w) = Ok (e, v)).
Proof.
  revert vars w. induction indices as [|i rest IH]; intros vars w.
  { simpl. split; [done|]. exists []. rewrite app_nil_r.
    split; [done|]. split; [done|]. split; [done|]. split.
    - intros e v [= <- <-]. split; reflexivity.
    - intros _. by exists RanOut, vars. }
  rewrite capture_loop_cons.
  set (w1 := mk_world (saved_hashes w) (disk w) (trace w ++ [EvFrames i])).
  destruct (save_frame_html_spec i (html paths) (read_frames (page_frames i) []) w1)
    as ([Hs (t2 & Ht2 & Hk2 & Hi2)] & Hres & Hall).
  destruct (save_frame_html i (html paths) (read_frames (page_frames i) []) w1)
    as [[h|e] w2]; cbn [fst snd] in *.
  2:{ split; [exact Hs|]. exists (EvFrames i :: t2).
      split; [by rewrite Ht2; simpl; rewrite <- app_assoc|].
      split; [unfold iterations in *; unfold count in *; simpl; lia|].
      split.
      { intros j [[= <-] | Hin]; [by left|].
        pose proof (count_zero_In is_frames t2 (EvFrames j) Hi2 Hin). discriminate. }
      split; [discriminate|].
      intros Hfs. specialize (Hall Hfs). discriminate. }
  assert (Hh : h = fingerprint_at i).
  { destruct Hres as [Hres | [p Hres]]; [|discriminate]. by injection Hres. }
  subst h. fold (fingerprint_at i).
  simpl. destruct (stop_unchanged args <=? _) eqn:Hstop.
  { cbn [fst snd saved_hashes trace]. split; [exact Hs|].
    exists (EvFrames i :: t2 ++ [EvPrint "No page changes detected. Stopping capture."]).
    assert (Hit : iterations (EvFrames i :: t2 ++
                    [EvPrint "No page changes detected. Stopping capture."]) = 1%nat).
    { change (EvFrames i :: ?l) with ([EvFrames i] ++ l).
      unfold iterations in *. rewrite !count_app, Hi2. reflexivity. }
    split; [rewrite Ht2; simpl; by rewrite <- !app_assoc|].
    split; [rewrite Hit; simpl; lia|].
    split.
    { intros j [[= <-] | Hin]; [by left|].
      apply in_app_or in Hin as [Hin | [[=] | []]].
      pose proof (count_zero_In is_frames t2 (EvFrames j) Hi2 Hin). discriminate. }
    split.
    { intros e v [= <- <-]. rewrite Hit. split; [reflexivity|].
      change (EvFrames i :: ?l) with ([EvFrames i] ++ l).
      unfold page_turns in *. rewrite !count_app, Hk2. reflexivity. }
    intros _. eauto. }
  set (w3 := mk_world (saved_hashes w2) (disk w2)
               ((trace w2 ++ [EvKey "ArrowRight"]) ++ [EvWait])).
  destruct (IH (compare_hash (fingerprint_at i) vars) w3)
    as (Hs' & t' & Ht' & Hlen' & Hin' & Hok' & Hall').
  split; [rewrite Hs'; exact Hs|].
  exists (EvFrames i :: t2 ++ [EvKey "ArrowRight"; EvWait] ++ t').
  assert (Hit : iterations (EvFrames i :: t2 ++ [EvKey "ArrowRight"; EvWait] ++ t')
                = S (iterations t')).
  { change (EvFrames i :: ?l) with ([EvFrames i] ++ l).
    unfold iterations in *. rewrite !count_app, Hi2. reflexivity. }
  assert (Hpt : page_turns (EvFrames i :: t2 ++ [EvKey "ArrowRight"; EvWait] ++ t')
                = S (page_turns t')).
  { change (EvFrames i :: ?l) with ([EvFrames i] ++ l).
    unfold page_turns in *. rewrite !count_app, Hk2. reflexivity. }
  split.
  { rewrite Ht'. unfold w3. cbn [trace]. rewrite Ht2. simpl.
    rewrite <- !app_assoc. reflexivity. }
  split; [rewrite Hit; simpl; lia|].
  split.
  { intros j [[= <-] | Hin]; [by left|].
    apply in_app_or in Hin as [Hin | Hin].
    - pose proof (count_zero_In is_frames t2 (EvFrames j) Hi2 Hin). discriminate.
    - destruct Hin as [[=] | [[=] | Hin]]. right. by apply Hin'. }
  split.
  { intros e v Hr. destruct (Hok' e v Hr) as [Hscan Hturns].
    rewrite Hscan, Hit, Hpt, Hturns. split; [reflexivity|].
    destruct e as [k|]; [|reflexivity]. simpl.
    pose proof (scan_broke_pos _ _ _ _ _ _ Hscan). lia. }
  exact Hall'.
Qed.

(** ** The loop variables, iteration by iteration *)

Lemma range_from_one n : range 1 (n + 1) = map Z.of_nat (seq 1 (Z.to_nat n)).
Proof.
  unfold range. replace (n + 1 - 1) with n by lia.
  rewrite <- seq_shift, map_map. apply map_ext. intros i. lia.
Qed.

Lemma fingerprint_nonempty contents : fingerprint contents <> "".
Proof. apply hexdigest_nonempty. Qed.

Lemma compare_hash_first contents :
  compare_hash (fingerprint contents) {| unchanged_count := 0; last_hash := "" |}
  = {| unchanged_count := 0; last_hash := fingerprint contents |}.
Proof.
  unfold compare_hash. cbn [last_hash unchanged_count].
  destruct (String.eqb_spec (fingerprint contents) ""); [|reflexivity].
  by destruct (fingerprint_nonempty contents).
Qed.

Lemma last_hash_after n :
  last_hash (vars_after (S n)) = fingerprint_at (Z.of_nat (S n)).
Proof.
  cbn [vars_after]. unfold compare_hash.
  destruct (String.eqb_spec (fingerprint_at (Z.of_nat (S n))) (last_hash (vars_after n)));
    cbn [last_hash]; congruence.
Qed.

Lemma count_nonneg n : 0 <= unchanged_count (vars_after n).
Proof.
  induction n as [|n IH]; [done|]. cbn [vars_after]. unfold compare_hash.
  destruct (String.eqb _ _); cbn [unchanged_count]; lia.
Qed.

Lemma count_step_unchanged n :
  unchanged_at (Z.of_nat (S n)) ->
  unchanged_count (vars_after (S n)) = unchanged_count (vars_after n) + 1.
Proof.
  intros [Hge Heq]. destruct n as [|n]; [lia|].
  replace (Z.of_nat (S (S n)) - 1) with (Z.of_nat (S n)) in Heq by lia.
  change (vars_after (S (S n)))
    with (compare_hash (fingerprint_at (Z.of_nat (S (S n)))) (vars_after (S n))).
  unfold compare_hash. rewrite last_hash_after, Heq, String.eqb_refl. reflexivity.
Qed.

Lemma count_step_changed n :
  ~ unchanged_at (Z.of_nat (S n)) -> unchanged_count (vars_after (S n)) = 0.
Proof.
  intros Hn. destruct n as [|n].
  - cbn [vars_after]. unfold fingerprint_at. by rewrite compare_hash_first.
  - change (vars_after (S (S n)))
      with (compare_hash (fingerprint_at (Z.of_nat (S (S n)))) (vars_after (S n))).
    unfold compare_hash. rewrite last_hash_after.
    destruct (String.eqb_spec (fingerprint_at (Z.of_nat (S (S n))))
                (fingerprint_at (Z.of_nat (S n)))) as [Heq|_]; [|reflexivity].
    exfalso. apply Hn. split; [lia|].
    by replace (Z.of_nat (S (S n)) - 1) with (Z.of_nat (S n)) by lia.
Qed.

Lemma unchanged_at_dec i : unchanged_at i \/ ~ unchanged_at i.
Proof.
  unfold unchanged_at.
  destruct (Z_le_dec 2 i); [|right; tauto].
  destruct (String.eqb_spec (fingerprint_at i) (fingerprint_at (i - 1))); tauto.
Qed.

Lemma count_step_le n :
  unchanged_count (vars_after (S n)) <= unchanged_count (vars_after n) + 1.
Proof.
  destruct (unchanged_at_dec (Z.of_nat (S n))) as [H|H].
  - rewrite (count_step_unchanged n H). lia.
  - rewrite (count_step_changed n H). pose proof (count_nonneg n). lia.
Qed.

(** The counter is the length of the run of unchanged snapshots. *)
Lemma counter_stable n s :
  s <= unchanged_count (vars_after n) <-> stable_run s (Z.of_nat n).
Proof.
  revert s. induction n as [|n IH]; intros s.
  - simpl. split.
    + intros Hs j Hj. lia.
    + intros Hrun. destruct (Z_le_dec s 0) as [|Hpos]; [done|].
      destruct (Hrun 0) as [H2 _]; lia.
  - destruct (unchanged_at_dec (Z.of_nat (S n))) as [Hu|Hu].
    + rewrite (count_step_unchanged n Hu). split.
      * intros Hs j Hj. destruct (Z.eq_dec j (Z.of_nat (S n))) as [->|Hne]; [done|].
        apply (proj1 (IH (s - 1))); lia.
      * intros Hrun. assert (Hprev : stable_run (s - 1) (Z.of_nat n)).
        { intros j Hj. apply Hrun. lia. }
        apply IH in Hprev. lia.
    + rewrite (count_step_changed n Hu). split.
      * intros Hs j Hj. lia.
      * intros Hrun. destruct (Z_le_dec s 0) as [|Hpos]; [done|].
        exfalso. apply Hu, Hrun. lia.
Qed.

(** [scan] over the pages [a+1 .. a+m], started with the variables that [a]
    iterations leave. *)
Lemma scan_spec stop m a :
  match scan stop (map Z.of_nat (seq (S a) m)) (vars_after a) with
  | (Broke z, v, n) =>
      exists k, z = Z.of_nat k /\ (a < k <= a + m)%nat /\ v = vars_after k /\
                n = (k - a)%nat /\ stop <= unchanged_count (vars_after k) /\
                forall j, (a < j < k)%nat -> unchanged_count (vars_after j) < stop
  | (RanOut, v, n) =>
      v = vars_after (a + m) /\ n = m /\
      forall j, (a < j <= a + m)%nat -> unchanged_count (vars_after j) < stop
  end.
Proof.
  revert a. induction m as [|m IH]; intros a.
  - simpl. rewrite Nat.add_0_r. split; [done|]. split; [done|]. intros j Hj. lia.
  - cbn [seq map scan].
    change (compare_hash (fingerprint_at (Z.of_nat (S a))) (vars_after a))
      with (vars_after (S a)).
    destruct (Z.leb_spec stop (unchanged_count (vars_after (S a)))) as [Hle|Hlt].
    + exists (S a). repeat split; try lia. 
    + specialize (IH (S a)).
      destruct (scan stop (map Z.of_nat (seq (S (S a)) m)) (vars_after (S a)))
        as [[[z|] v] n].
      * destruct IH as (k & -> & Hk & -> & -> & Hstop & Hbefore).
        exists k. repeat split; try lia.
        intros j Hj. destruct (Nat.eq_dec j (S a)) as [->|Hne]; [done|].
        apply Hbefore. lia.
      * destruct IH as (-> & -> & Hall).
        rewrite Nat.add_succ_r. split; [done|]. split; [done|].
        intros j Hj. destruct (Nat.eq_dec j (S a)) as [->|Hne]; [done|].
        apply Hall. lia.
Qed.

(** ** The whole of [main] *)

Lemma vars_after_0 : vars_after 0 = {| unchanged_count := 0; last_hash := "" |}.
Proof. reflexivity. Qed.

(** [main] adds to the loop events that are neither key presses nor reads
    of the frame list. *)
Lemma main_unfold args w :
  main args w
  = match capture_loop args (paths_of args) (range 1 (max_pages args + 1)) (vars_after 0)
            (mk_world (saved_hashes w) (disk w) (trace w ++ opening args)) with
    | (Ok out, w2) =>
        (Ok out, mk_world (saved_hashes w2) (disk w2)
                   (trace w2 ++ closing args (saved_hashes w2)))
    | (Raise e, w2) => (Raise e, w2)
    end.
Proof.
  unfold main, build_paths, bind, emit, ret, get_saved_hashes, opening, closing, paths_of.
  cbn [fst snd saved_hashes disk trace vars_after html images].
  rewrite <- !app_assoc. cbn [app].
  destruct (capture_loop _ _ _ _ _) as [[out|e] w2]; [|reflexivity].
  cbn [saved_hashes disk trace]. by rewrite <- app_assoc.
Qed.

Lemma main_spec args w :
  exists t,
    trace (snd (main args w)) = trace w ++ t /\
    (iterations t <= Z.to_nat (max_pages args))%nat /\
    (forall i, In (EvFrames i) t -> 1 <= i <= max_pages args) /\
    (forall e v, fst (main args w) = Ok (e, v) ->
       scan (stop_unchanged args) (range 1 (max_pages args + 1)) (vars_after 0)
       = (e, v, iterations t) /\
       page_turns t = turns_of e (iterations t)) /\
    ((forall d p x, fs_accepts d p x = true) ->
     exists e v, fst (main args w) = Ok (e, v)).
Proof.
  rewrite main_unfold.
  set (pre := opening args). set (paths := paths_of args).
  set (w1 := mk_world (saved_hashes w) (disk w) (trace w ++ pre)).
  assert (Hw1 : trace w1 = trace w ++ pre) by reflexivity.
  destruct (capture_loop_spec args paths (range 1 (max_pages args + 1)) (vars_after 0) w1)
    as (_ & t & Ht & Hlen & Hin & Hok & Hall).
  assert (Hrange : forall i, In i (range 1 (max_pages args + 1)) -> 1 <= i <= max_pages args).
  { intros i Hi. rewrite range_from_one in Hi. apply in_map_iff in Hi as (n & <- & Hn).
    apply in_seq in Hn. lia. }
  assert (Hrl : length (range 1 (max_pages args + 1)) = Z.to_nat (max_pages args)).
  { rewrite range_from_one. by rewrite length_map, length_seq. }
  rewrite Hrl in Hlen.
  destruct (capture_loop args paths (range 1 (max_pages args + 1)) (vars_after 0) w1)
    as [[[e v]|ex] w2]; cbn [fst snd trace] in *.
  - exists (pre ++ t ++ closing args (saved_hashes w2)).
    assert (Hit : forall l, iterations (pre ++ t ++ l) = (iterations t + iterations l)%nat).
    { intros l. unfold iterations. by rewrite !count_app. }
    assert (Hpt : forall l, page_turns (pre ++ t ++ l) = (page_turns t + page_turns l)%nat).
    { intros l. unfold page_turns. by rewrite !count_app. }
    split.
    { rewrite Ht, Hw1. rewrite <- !app_assoc. reflexivity. }
    rewrite Hit, Hpt. change (iterations (closing _ _)) with 0%nat.
    change (page_turns (closing _ _)) with 0%nat. rewrite !Nat.add_0_r.
    split; [exact Hlen|]. split.
    { intros i Hi. apply Hrange, Hin.
      apply in_app_or in Hi as [Hi | Hi].
      - unfold pre in Hi. simpl in Hi. repeat (destruct Hi as [Hi | Hi]; [discriminate|]). done.
      - apply in_app_or in Hi as [Hi | Hi]; [exact Hi|].
        simpl in Hi. repeat (destruct Hi as [Hi | Hi]; [discriminate|]). done. }
    split.
    { intros e' v' [= <- <-]. by apply Hok. }
    intros _. by exists e, v.
  - exists (pre ++ t). split; [by rewrite Ht, Hw1, <- app_assoc|].
    assert (Hit : iterations (pre ++ t) = iterations t).
    { unfold iterations. by rewrite count_app. }
    rewrite Hit. split; [exact Hlen|]. split.
    { intros i Hi. apply Hrange, Hin.
      apply in_app_or in Hi as [Hi | Hi]; [|exact Hi].
      unfold pre in Hi. simpl in Hi. repeat (destruct Hi as [Hi | Hi]; [discriminate|]). done. }
    split; [discriminate|].
    intros Hfs. destruct (Hall Hfs) as (e & v & [=]).
Qed.

(** Where a run of [main] that returns has left the loop, read off the
    snapshots. *)
Lemma main_outcome args w e v :
  fst (main args w) = Ok (e, v) ->
  exists t,
    trace (snd (main args w)) = trace w ++ t /\
    page_turns t = turns_of e (iterations t) /\
    match e with
    | Broke k =>
        1 <= k <= max_pages args /\ v = vars_after (Z.to_nat k) /\
        iterations t = Z.to_nat k /\
        stable_run (stop_unchanged args) k /\
        forall j, 1 <= j < k -> ~ stable_run (stop_unchanged args) j
    | RanOut =>
        v = vars_after (Z.to_nat (max_pages args)) /\
        iterations t = Z.to_nat (max_pages args) /\
        forall j, 1 <= j <= max_pages args -> ~ stable_run (stop_unchanged args) j
    end.
Proof.
  intros Hr. destruct (main_spec args w) as (t & Ht & _ & _ & Hok & _).
  destruct (Hok e v Hr) as [Hscan Hturns].
  exists t. split; [exact Ht|]. split; [exact Hturns|].
  pose proof (scan_spec (stop_unchanged args) (Z.to_nat (max_pages args)) 0) as Hs.
  rewrite <- range_from_one, Hscan in Hs.
  destruct e as [z|].
  - destruct Hs as (k & -> & Hk & -> & Hn & Hstop & Hbefore).
    rewrite Nat2Z.id. split; [lia|]. split; [done|]. split; [lia|]. split.
    + by apply counter_stable.
    + intros j Hj Hrun. replace j with (Z.of_nat (Z.to_nat j)) in Hrun by lia.
      apply counter_stable in Hrun. specialize (Hbefore (Z.to_nat j)). lia.
  - destruct Hs as (-> & Hn & Hall). split; [done|]. split; [done|].
    intros j Hj Hrun. replace j with (Z.of_nat (Z.to_nat j)) in Hrun by lia.
    apply counter_stable in Hrun. specialize (Hall (Z.to_nat j)). lia.
Qed.

Lemma main_trace_unique args w t1 t2 :
  trace (snd (main args w)) = trace w ++ t1 ->
  trace (snd (main args w)) = trace w ++ t2 -> t1 = t2.
Proof. intros H1 H2. rewrite H1 in H2. by apply app_inv_head in H2. Qed.

Lemma first_snapshot_changed : ~ unchanged_at 1.
Proof. intros [H _]. lia. Qed.

(** At the first page that ends a run of [stop] unchanged snapshots the
    counter is [stop], not more. *)
Lemma counter_at_first_stop stop k :
  0 <= stop -> 1 <= k ->
  stable_run stop k ->
  (forall j, 1 <= j < k -> ~ stable_run stop j) ->
  unchanged_count (vars_after (Z.to_nat k)) = stop.
Proof.
  intros Hnn Hk Hrun Hfirst.
  assert (Hge : stop <= unchanged_count (vars_after (Z.to_nat k))).
  { apply counter_stable. by replace (Z.of_nat (Z.to_nat k)) with k by lia. }
  replace (Z.to_nat k) with (S (Z.to_nat (k - 1))) in * by lia.
  pose proof (count_step_le (Z.to_nat (k - 1))) as Hle.
  destruct (Z.eq_dec k 1) as [->|Hne].
  - change (Z.to_nat (1 - 1)) with 0%nat in *.
    rewrite (count_step_changed 0 first_snapshot_changed) in *. lia.
  - assert (Hprev : ~ stop <= unchanged_count (vars_after (Z.to_nat (k - 1)))).
    { intros H. apply counter_stable in H.
      replace (Z.of_nat (Z.to_nat (k - 1))) with (k - 1) in H by lia.
      apply (Hfirst (k - 1)); [lia | exact H]. }
    lia.
Qed.

(** ** Claims about the capture loop *)

(** C2. When the file system accepts the writes, the loop is left by
    [break] at page [k] exactly when [k] is the first page that ends a run
    of [stop_unchanged] snapshots each equal to the one before it: never at
    an earlier page, never at a later one; the counter is then
    [stop_unchanged] and [k - 1] keys were pressed. When no page ends such
    a run the range is exhausted. For fingerprints A, A, A at pages 1, 2, 3
    and [stop_unchanged = 2] the loop breaks at page 3 with the counter at 2
    after exactly 2 key presses. *)
Theorem stops_after_exactly_stop_unchanged (args : Args) (w : World) :
  (forall d p x, fs_accepts d p x = true) ->
  (forall k,
     1 <= k <= max_pages args ->
     stable_run (stop_unchanged args) k ->
     (forall j, 1 <= j < k -> ~ stable_run (stop_unchanged args) j) ->
     exists v t,
       fst (main args w) = Ok (Broke k, v) /\
       trace (snd (main args w)) = trace w ++ t /\
       iterations t = Z.to_nat k /\
       page_turns t = Z.to_nat (k - 1) /\
       last_hash v = fingerprint_at k /\
       (0 <= stop_unchanged args -> unchanged_count v = stop_unchanged args)) /\
  (forall k v,
     fst (main args w) = Ok (Broke k, v) ->
     1 <= k <= max_pages args /\
     stable_run (stop_unchanged args) k /\
     forall j, 1 <= j < k -> ~ stable_run (stop_unchanged args) j) /\
  ((forall j, 1 <= j <= max_pages args -> ~ stable_run (stop_unchanged args) j) ->
   exists v t,
     fst (main args w) = Ok (RanOut, v) /\
     trace (snd (main args w)) = trace w ++ t /\
     iterations t = Z.to_nat (max_pages args) /\
     page_turns t = Z.to_nat (max_pages args)) /\
  (stop_unchanged args = 2 -> 3 <= max_pages args ->
   fingerprint_at 2 = fingerprint_at 1 -> fingerprint_at 3 = fingerprint_at 2 ->
   exists t,
     fst (main args w)
     = Ok (Broke 3, {| unchanged_count := 2; last_hash := fingerprint_at 1 |}) /\
     trace (snd (main args w)) = trace w ++ t /\
     iterations t = 3%nat /\ page_turns t = 2%nat).
Proof.
  intros Hfs.
  destruct (main_spec args w) as (_ & _ & _ & _ & _ & Hall).
  destruct (Hall Hfs) as (e & v & Hr).
  destruct (main_outcome args w e v Hr) as (t & Ht & Hturns & He).
  assert (Hat : forall k,
     1 <= k <= max_pages args ->
     stable_run (stop_unchanged args) k ->
     (forall j, 1 <= j < k -> ~ stable_run (stop_unchanged args) j) ->
     fst (main args w) = Ok (Broke k, vars_after (Z.to_nat k)) /\
     iterations t = Z.to_nat k /\ page_turns t = Z.to_nat (k - 1) /\
     last_hash (vars_after (Z.to_nat k)) = fingerprint_at k /\
     (0 <= stop_unchanged args ->
      unchanged_count (vars_after (Z.to_nat k)) = stop_unchanged args)).
  { intros k Hk Hrun Hfirst. destruct e as [k'|].
    - destruct He as (Hk' & -> & Hit & Hrun' & Hfirst').
      assert (k' = k) as ->.
      { destruct (Z.lt_trichotomy k' k) as [Hlt | [Heq | Hgt]]; [|exact Heq|].
        - exfalso. apply (Hfirst k'); [lia | exact Hrun'].
        - exfalso. apply (Hfirst' k); [lia | exact Hrun]. }
      split; [exact Hr|]. split; [exact Hit|].
      split; [rewrite Hturns, Hit; simpl; lia|]. split.
      + replace (Z.to_nat k) with (S (Z.to_nat (k - 1))) by lia.
        rewrite last_hash_after. f_equal. lia.
      + intros Hnn. apply counter_at_first_stop; [exact Hnn | lia | exact Hrun | exact Hfirst].
    - destruct He as (_ & _ & Hnone). exfalso. exact (Hnone k Hk Hrun). }
  split; [|split; [|split]].
  - intros k Hk Hrun Hfirst.
    destruct (Hat k Hk Hrun Hfirst) as (H1 & H2 & H3 & H4 & H5).
    exists (vars_after (Z.to_nat k)), t. tauto.
  - intros k v' Hr'. destruct (main_outcome args w (Broke k) v' Hr')
      as (_ & _ & _ & Hk & _ & _ & Hrun & Hfirst). tauto.
  - intros Hnone. destruct e as [k'|].
    + destruct He as (Hk' & _ & _ & Hrun' & _). exfalso. exact (Hnone k' Hk' Hrun').
    + destruct He as (_ & Hit & _). exists v, t.
      split; [exact Hr|]. split; [exact Ht|]. split; [exact Hit|].
      rewrite Hturns. exact Hit.
  - intros Hstop Hmax H21 H32.
    assert (Hrun : stable_run (stop_unchanged args) 3).
    { rewrite Hstop. intros j Hj. assert (j = 2 \/ j = 3) as [-> | ->] by lia;
        (split; [lia|]); [exact H21 | exact H32]. }
    assert (Hfirst : forall j, 1 <= j < 3 -> ~ stable_run (stop_unchanged args) j).
    { rewrite Hstop. intros j Hj Hrun'. apply first_snapshot_changed, (Hrun' 1). lia. }
    destruct (Hat 3 ltac:(lia) Hrun Hfirst) as (H1 & H2 & H3 & H4 & H5).
    exists t. split; [|split; [exact Ht | split; [exact H2 | exact H3]]].
    rewrite H1. do 2 f_equal.
    destruct (vars_after (Z.to_nat 3)) as [c l]. cbn [last_hash unchanged_count] in *.
    rewrite H4, H32, H21, H5 by lia. by rewrite Hstop.
Qed.

(** C3. Whatever the configuration, the snapshots and the file system, the
    loop makes at most [max_pages] iterations, each for a page index from 1
    to [max_pages], and [main] returns when the file system accepts the
    writes; when every snapshot differs from the one before it (and
    [stop_unchanged] is at least 1) the loop ends by exhausting the range,
    after exactly [max_pages] iterations. *)
Theorem loop_bounded_by_max_pages (args : Args) (w : World) :
  exists t,
    trace (snd (main args w)) = trace w ++ t /\
    (iterations t <= Z.to_nat (max_pages args))%nat /\
    (forall i, In (EvFrames i) t -> 1 <= i <= max_pages args) /\
    ((forall d p x, fs_accepts d p x = true) ->
     exists e v, fst (main args w) = Ok (e, v)) /\
    (forall e v,
       fst (main args w) = Ok (e, v) ->
       1 <= stop_unchanged args ->
       (forall j, 2 <= j <= max_pages args -> fingerprint_at j <> fingerprint_at (j - 1)) ->
       e = RanOut /\ iterations t = Z.to_nat (max_pages args)).
Proof.
  destruct (main_spec args w) as (t & Ht & Hlen & Hin & _ & Hall).
  exists t. split; [exact Ht|]. split; [exact Hlen|]. split; [exact Hin|].
  split; [exact Hall|].
  intros e v Hr Hstop Hdiff.
  destruct (main_outcome args w e v Hr) as (t' & Ht' & _ & He).
  rewrite (main_trace_unique args w t t' Ht Ht').
  destruct e as [k|].
  - destruct He as (Hk & _ & _ & Hrun & _). exfalso.
    destruct (Hrun k ltac:(lia)) as [H2 Heq]. apply (Hdiff k); [lia | exact Heq].
  - destruct He as (_ & Hit & _). split; [reflexivity | exact Hit].
Qed.

(** C4, amended. The first fingerprint is never the empty sentinel, so the
    first comparison resets the counter to 0; hence, when [stop_unchanged]
    is at least 1, the loop cannot break in its first iteration: a run that
    is left by [break] is left at page 2 or later, after at least one key
    press. *)
Theorem page_turn_before_first_stop (args : Args) (w : World) :
  1 <= stop_unchanged args ->
  (forall contents,
     fingerprint contents <> "" /\
     compare_hash (fingerprint contents) {| unchanged_count := 0; last_hash := "" |}
     = {| unchanged_count := 0; last_hash := fingerprint contents |}) /\
  (forall k v,
     fst (main args w) = Ok (Broke k, v) ->
     2 <= k /\
     exists t, trace (snd (main args w)) = trace w ++ t /\
               (2 <= iterations t)%nat /\ (1 <= page_turns t)%nat).
Proof.
  intros Hstop. split.
  - intros contents. split; [apply fingerprint_nonempty | apply compare_hash_first].
  - intros k v Hr.
    destruct (main_outcome args w (Broke k) v Hr)
      as (t & Ht & Hturns & Hk & _ & Hit & Hrun & _).
    assert (H2 : 2 <= k) by (destruct (Hrun k ltac:(lia)) as [H2 _]; exact H2).
    split; [exact H2|]. exists t. split; [exact Ht|].
    rewrite Hturns, Hit. simpl. lia.
Qed.

End Script.

(** ** One frame whose read raises *)

Lemma dict_set_keys k v d k' :
  In k' (map fst (dict_set k v d)) <-> k' = k \/ In k' (map fst d).
Proof.
  induction d as [|[k0 v0] d IH]; simpl.
  - split; [intros [<- | []]; by left | intros [-> | []]; by left].
  - destruct (String.eqb_spec k0 k) as [Heq|Hne]; simpl.
    + subst k0. split; [tauto | intros [-> | H]; [by left | exact H]].
    + rewrite IH. split; [intros [H | [H | H]] | intros [H | [H | H]]]; auto.
Qed.

Lemma read_frames_keeps_keys l d k :
  In k (map fst d) -> In k (map fst (read_frames l d)).
Proof.
  revert d. induction l as [|g l IH]; intros d Hk; [exact Hk|].
  simpl. destruct (content g); apply IH; [|exact Hk].
  apply dict_set_keys. by right.
Qed.

Lemma read_frames_captures l d g markup :
  In g l -> content g = Ok markup -> In (frame_key g) (map fst (read_frames l d)).
Proof.
  revert d. induction l as [|g0 l IH]; intros d Hin Hc; [destruct Hin|].
  destruct Hin as [-> | Hin].
  - simpl. rewrite Hc. apply read_frames_keeps_keys, dict_set_keys. by left.
  - simpl. destruct (content g0); by apply IH.
Qed.

(** The loop depends on the frames only through the snapshots read from
    them. *)
Lemma capture_loop_ext fs pf1 pf2 args paths indices vars w :
  (forall i, In i indices -> read_frames (pf1 i) [] = read_frames (pf2 i) []) ->
  capture_loop fs pf1 args paths indices vars w
  = capture_loop fs pf2 args paths indices vars w.
Proof.
  revert vars w. induction indices as [|i rest IH]; intros vars w Hext; [reflexivity|].
  rewrite !capture_loop_cons, (Hext i (or_introl eq_refl)).
  destruct (save_frame_html fs i (html paths) (read_frames (pf2 i) []) _) as [[h|e] w2];
    [|reflexivity].
  destruct (_ <=? _); [reflexivity|].
  apply IH. intros j Hj. apply Hext. by right.
Qed.

Lemma main_ext fs pf1 pf2 args w :
  (forall i, read_frames (pf1 i) [] = read_frames (pf2 i) []) ->
  main fs pf1 args w = main fs pf2 args w.
Proof.
  intros Hext. rewrite !main_unfold.
  rewrite (capture_loop_ext fs pf1 pf2); [reflexivity|]. intros i _. apply Hext.
Qed.

(** C6. When the read of one frame raises in an iteration, the snapshot of
    that iteration is the one the other frames give: each of them that is
    read is in it under its key, and the whole run is the run in which the
    frame is absent from that iteration's frame list; in particular [main]
    returns when the file system accepts the writes. *)
Theorem errored_frame_is_skipped
    (fs_accepts : gmap string (list byte) -> string -> list byte -> bool)
    (page_frames : Z -> list Frame) (args : Args) (w : World)
    (page_index : Z) (before after : list Frame) (f : Frame) (e : PyExc) :
  page_frames page_index = before ++ f :: after ->
  content f = Raise e ->
  read_frames (page_frames page_index) [] = read_frames (before ++ after) [] /\
  (forall g markup,
     In g (before ++ after) -> content g = Ok markup ->
     In (frame_key g) (map fst (read_frames (page_frames page_index) []))) /\
  main fs_accepts page_frames args w
  = main fs_accepts
      (fun i => if i =? page_index then before ++ after else page_frames i) args w /\
  ((forall d p x, fs_accepts d p x = true) ->
   exists out, fst (main fs_accepts page_frames args w) = Ok out).
Proof.
  intros Hpf He.
  assert (Hsnap : read_frames (page_frames page_index) []
                  = read_frames (before ++ after) []).
  { rewrite Hpf. by apply read_frames_skips with e. }
  split; [exact Hsnap|]. split; [|split].
  - intros g markup Hin Hc. rewrite Hsnap. by apply read_frames_captures with markup.
  - apply main_ext. intros i. destruct (Z.eqb_spec i page_index) as [->|_]; [exact Hsnap|done].
  - intros Hfs. destruct (main_spec fs_accepts page_frames args w) as (_ & _ & _ & _ & _ & Hall).
    destruct (Hall Hfs) as (x & v & Hr). by exists (x, v).
Qed.

(** C10. The digest goes into the hash set before the write is attempted.
    When the write is refused the task raises, the disk and the trace stay
    as they were and the digest stays in the set; from then on, whatever
    the file system would accept, every response with the same bytes is
    dropped as a duplicate, so the set names content no file holds. *)
Theorem digest_recorded_before_write
    (mime : string -> option string)
    (fs fs' : gmap string (list byte) -> string -> list byte -> bool)
    (r : Response) (image_dir : string) (w : World) (b : list byte) :
  is_image_response r -> body r = Ok b -> b <> [] ->
  digest_of b ∉ saved_hashes w ->
  fs (disk w) (image_path mime r image_dir b) b = false ->
  let w1 := snd (save_response_images mime fs r image_dir w) in
  fst (save_response_images mime fs r image_dir w)
    = Raise (OSError (image_path mime r image_dir b)) /\
  digest_of b ∈ saved_hashes w1 /\
  disk w1 = disk w /\ trace w1 = trace w /\
  (forall r' w2, body r' = Ok b -> saved_hashes w1 ⊆ saved_hashes w2 ->
                 save_response_images mime fs' r' image_dir w2 = (Ok tt, w2)) /\
  (forall rs, let w2 := run_interceptors mime fs' image_dir rs w1 in
              digest_of b ∈ saved_hashes w2 /\
              files_written (digest_of b) (trace w2) = files_written (digest_of b) (trace w)).
Proof.
  intros Himg Hb Hne Hfresh Hfs w1. subst w1.
  rewrite (save_fresh_digest mime fs r image_dir w b) by done.
  rewrite Hfs. simpl. repeat split.
  - set_solver.
  - intros r' w2 Hb' Hsub. apply (save_known_digest mime fs' r' image_dir w2 b); set_solver.
  - apply saved_hashes_run. simpl. set_solver.
  - set (w1 := mk_world _ _ _).
    assert (Hgen : forall l w2, digest_of b ∈ saved_hashes w2 ->
              files_written (digest_of b) (trace (run_interceptors mime fs' image_dir l w2))
              = files_written (digest_of b) (trace w2)).
    { intros l. induction l as [|r' l IH]; intros w2 Hin; [reflexivity|]. simpl.
      rewrite IH by (by apply saved_hashes_step).
      destruct (save_cases mime fs' r' image_dir w2)
        as [-> | (b' & Himg' & Hb' & Hne' & Hfresh')]; [done|].
      rewrite (save_fresh_digest mime fs' r' image_dir w2 b') by done.
      destruct (fs' _ _ _); simpl; [|done].
      rewrite files_written_snoc.
      destruct (String.eqb_spec (digest_of b') (digest_of b)) as [Heq|_]; [|lia].
      rewrite Heq in Hfresh'. contradiction. }
    rewrite Hgen; [done|]. simpl. set_solver.
Qed.

(** * Concrete runs *)

Lemma dedup_one_file_per_digest_witness :
  files_written (digest_of body50)
    (trace (run_interceptors cpython_guess_extension fs_accept_all "output/images"
              served_twice initial_world)) = 1%nat.
Proof.
  pose proof (dedup_one_file_per_digest cpython_guess_extension fs_accept_all
                "output/images" served_twice ∅) as H.
  cbv zeta in H. destruct H as (_ & H).
  apply (proj1 (H (fun _ _ _ => eq_refl))
           (image_response "https://mirror.example/get?id=7" "image/jpeg" body50)).
  - apply elem_of_cons. right. apply elem_of_cons. left. reflexivity.
  - split; reflexivity.
  - reflexivity.
  - discriminate.
Defined.

(** C1 as it is worded fails in three ways. Two image responses with the
    same, empty, bytes: no file at all is written. Two with the same fifty
    bytes and every write refused: no file either. One with those bytes,
    typed JPEG, over a directory in which an earlier run left them typed
    PNG: two files hold them. *)
Lemma one_file_per_identical_body_fails :
  (Forall is_image_response empty_twice /\
   Forall (fun r => body r = Ok []) empty_twice /\
   trace (run_interceptors cpython_guess_extension fs_accept_all "output/images"
            empty_twice initial_world) = []) /\
  (Forall is_image_response served_twice /\
   Forall (fun r => body r = Ok body50) served_twice /\
   files_written (digest_of body50)
     (trace (run_interceptors cpython_guess_extension fs_refuse_all "output/images"
               served_twice initial_world)) = 0%nat) /\
  (Forall is_image_response served_again /\
   disk (run_interceptors cpython_guess_extension fs_accept_all "output/images"
           served_again (mk_world ∅ left_by_earlier_run []))
     !! "output/images/77cf12060d47183e.png" = Some body50 /\
   disk (run_interceptors cpython_guess_extension fs_accept_all "output/images"
           served_again (mk_world ∅ left_by_earlier_run []))
     !! "output/images/77cf12060d47183e.jpg" = Some body50 /\
   image_path cpython_guess_extension
     (image_response "https://cdn.example/covers/a.png" "image/png" body50)
     "output/images" body50 = "output/images/77cf12060d47183e.png").
Proof.
  split; [repeat split; repeat constructor|].
  split; [split; [|split]; [repeat constructor; split; reflexivity
                           |repeat constructor
                           |vm_compute; reflexivity]|].
  split; [repeat constructor; split; reflexivity|].
  repeat split; vm_compute; reflexivity.
Qed.

Lemma empty_body_changes_nothing_witness :
  save_response_images cpython_guess_extension fs_accept_all
    (image_response "https://cdn.example/covers/a.png" "image/png" [])
    "output/images" initial_world
  = (Ok tt, initial_world).
Proof.
  apply (empty_body_changes_nothing cpython_guess_extension fs_accept_all
           (image_response "https://cdn.example/covers/a.png" "image/png" [])
           "output/images" initial_world); reflexivity.
Defined.

(** The write of the first response is refused; the same bytes, offered
    again to a file system that accepts everything, are dropped. *)
Lemma digest_recorded_before_write_witness :
  let r := image_response "https://cdn.example/covers/a.png" "image/png" body50 in
  let r' := image_response "https://mirror.example/get?id=7" "image/jpeg" body50 in
  let w1 := snd (save_response_images cpython_guess_extension fs_refuse_all r
                   "output/images" initial_world) in
  digest_of body50 ∈ saved_hashes w1 /\
  disk w1 = ∅ /\
  save_response_images cpython_guess_extension fs_accept_all r' "output/images" w1
  = (Ok tt, w1).
Proof.
  intros r r' w1.
  assert (Hfresh : digest_of body50 ∉ saved_hashes initial_world)
    by apply not_elem_of_empty.
  assert (Hne : body50 <> []) by discriminate.
  assert (Himg : is_image_response r) by (split; reflexivity).
  pose proof (digest_recorded_before_write cpython_guess_extension
                fs_refuse_all fs_accept_all r "output/images" initial_world body50
                Himg eq_refl Hne Hfresh eq_refl) as H.
  cbv zeta in H. destruct H as (_ & Hin & Hdisk & _ & Hdrop & _).
  split; [exact Hin|]. split; [exact Hdisk|].
  apply Hdrop; [reflexivity | done].
Defined.

(** The digest agrees with the published test vectors. *)
Example sha256_empty :
  hexdigest sha256_new
  = "e3b0c44298fc1c149afbf4c8996fb92427ae41e4649b934ca495991b7852b855".
Proof. vm_compute. reflexivity. Qed.

Example sha256_abc :
  digest_of (String.list_byte_of_string "abc")
  = "ba7816bf8f01cfea414140de5dae2223b00361a396177a9cb410ff61f20015ad".
Proof. vm_compute. reflexivity. Qed.

Example sha256_two_blocks :
  digest_of (String.list_byte_of_string
    "abcdbcdecdefdefgefghfghighijhijkijkljklmklmnlmnomnopnopq")
  = "248d6a61d20638b8e5c026930c3e6039a33ce45964ff2167f6ecedd419db06c1".
Proof. vm_compute. reflexivity. Qed.

Example sha256_K_ends :
  length SHA256.K = 64%nat /\ nth 0 SHA256.K 0 = 0x428a2f98 /\ nth 63 SHA256.K 0 = 0xc67178f2.
Proof. repeat split. Qed.

Example extension_examples :
  guess_extension cpython_guess_extension "image/png" "https://cdn.example/a.jpg" = ".png" /\
  guess_extension cpython_guess_extension " image/jpeg ; q=1" "https://cdn.example/a" = ".jpg" /\
  guess_extension cpython_guess_extension "image/x-unknown" "https://cdn.example/a.b/c.tiff?x=1"
    = ".tiff?x=1" /\
  guess_extension cpython_guess_extension "image/x-unknown" "https://example.com" = ".com" /\
  guess_extension cpython_guess_extension "" "https://cdn.example/covers/a" = ".img".
Proof. vm_compute. repeat split. Qed.

(** ** Runs of the capture loop *)

(** Fingerprints A, A, A and [--stop-unchanged 2]. *)
Lemma stops_after_exactly_stop_unchanged_witness :
  exists t,
    fst (main fs_accept_all same_page (args_of 300 2) initial_world)
    = Ok (Broke 3, {| unchanged_count := 2; last_hash := fingerprint_at same_page 1 |}) /\
    trace (snd (main fs_accept_all same_page (args_of 300 2) initial_world))
    = trace initial_world ++ t /\
    iterations t = 3%nat /\ page_turns t = 2%nat.
Proof.
  destruct (stops_after_exactly_stop_unchanged fs_accept_all same_page (args_of 300 2)
              initial_world (fun _ _ _ => eq_refl)) as (_ & _ & _ & H).
  apply H; [reflexivity | simpl; lia | reflexivity | reflexivity].
Defined.

(** [--stop-unchanged 1]: the loop breaks at page 2, one key press before. *)
Lemma page_turn_before_first_stop_witness :
  exists t,
    trace (snd (main fs_accept_all same_page (args_of 300 1) initial_world))
    = trace initial_world ++ t /\
    (2 <= iterations t)%nat /\ (1 <= page_turns t)%nat.
Proof.
  assert (Hstop : 1 <= stop_unchanged (args_of 300 1)) by (simpl; lia).
  destruct (page_turn_before_first_stop fs_accept_all same_page (args_of 300 1)
              initial_world Hstop) as [_ H].
  apply (H 2 {| unchanged_count := 1; last_hash := fingerprint_at same_page 1 |}).
  vm_compute. reflexivity.
Defined.

(** C4 as it is worded fails: with [--stop-unchanged 0] the stop decision of
    the first iteration ends the loop, and no key was pressed. *)
Lemma stop_unchanged_zero_stops_without_page_turn :
  fst (main fs_accept_all same_page (args_of 300 0) initial_world)
  = Ok (Broke 1, {| unchanged_count := 0; last_hash := fingerprint_at same_page 1 |}) /\
  In (EvPrint "No page changes detected. Stopping capture.")
     (trace (snd (main fs_accept_all same_page (args_of 300 0) initial_world))) /\
  iterations (trace (snd (main fs_accept_all same_page (args_of 300 0) initial_world)))
  = 1%nat /\
  page_turns (trace (snd (main fs_accept_all same_page (args_of 300 0) initial_world)))
  = 0%nat.
Proof.
  split; [vm_compute; reflexivity|]. split; [|split; vm_compute; reflexivity].
  vm_compute. tauto.
Qed.

(** Two frames against one, other page index, other directory. *)
Lemma fingerprint_deterministic_witness :
  exists h,
    fst (save_frame_html fs_accept_all 1 "output/html"
           [("https://read.amazon.com/", "<p>x</p>"); ("frame_inner", "y")] initial_world)
    = Ok h /\
    fst (save_frame_html fs_accept_all 7 "elsewhere/html"
           [("frame_", "<p>x</p>y")] initial_world)
    = Ok h.
Proof.
  apply (fingerprint_deterministic fs_accept_all 1 7 "output/html" "elsewhere/html"
           [("https://read.amazon.com/", "<p>x</p>"); ("frame_inner", "y")]
           [("frame_", "<p>x</p>y")] initial_world initial_world);
    [reflexivity | intros; reflexivity].
Defined.

(** The same markup under a URL and under a synthetic name. *)
Lemma fingerprint_ignores_identifiers_witness :
  fingerprint [("https://read.amazon.com/", "<html>A</html>")]
  = fingerprint [("frame_reader", "<html>A</html>")].
Proof.
  apply (fingerprint_ignores_identifiers fs_accept_all
           [("https://read.amazon.com/", "<html>A</html>")]
           [("frame_reader", "<html>A</html>")]).
  reflexivity.
Defined.

(** The detached frame is the second of three. *)
Lemma errored_frame_is_skipped_witness :
  read_frames (with_detached 1) []
  = [("https://read.amazon.com/", "<html>A</html>"); ("frame_reader", "<p>1</p>")] /\
  main fs_accept_all with_detached (args_of 300 3) initial_world
  = main fs_accept_all
      (fun i => if i =? 1
                then [frame_of "https://read.amazon.com/" "<html>A</html>"] ++
                     [{| frame_url := ""; frame_name := "reader"; content := Ok "<p>1</p>" |}]
                else with_detached i)
      (args_of 300 3) initial_world.
Proof.
  destruct (errored_frame_is_skipped fs_accept_all with_detached (args_of 300 3) initial_world 1
              [frame_of "https://read.amazon.com/" "<html>A</html>"]
              [{| frame_url := ""; frame_name := "reader"; content := Ok "<p>1</p>" |}]
              (detached_frame "https://ads.example/slot")
              (PlaywrightError "Frame was detached") eq_refl eq_refl)
    as (H1 & _ & H3 & _).
  split; [rewrite H1; reflexivity | exact H3].
Defined.

Example five_changing_pages :
  fst (main fs_accept_all counting_pages (args_of 5 3) initial_world)
  = Ok (RanOut, {| unchanged_count := 0; last_hash := fingerprint_at counting_pages 5 |}) /\
  iterations (trace (snd (main fs_accept_all counting_pages (args_of 5 3) initial_world)))
  = 5%nat /\
  page_turns (trace (snd (main fs_accept_all counting_pages (args_of 5 3) initial_world)))
  = 5%nat.
Proof. repeat split; vm_compute; reflexivity. Qed.

Example string_examples :
  Path.suffix "https://example.com/a/b.png?x=1" = ".png?x=1" /\
  Str.format_04d 7 = "0007" /\
  Str.format_04d 12345 = "12345" /\
  Str.replace (Str.replace "https://read.amazon.com/reader" "://" "_") "/" "_"
  = "https_read.amazon.com_reader" /\
  Str.strip " image/png " = "image/png" /\
  Str.split ";" "image/png; charset=binary" = ["image/png"; " charset=binary"].
Proof. vm_compute. repeat split. Qed.

(** * Further properties of the script *)

(** ** The image interceptor *)

(** X1. A response is passed over before its body is read when the request is
    not an image request, when it has no [content-type] header, or when
    the content type does not start with [image/]: nothing changes, and a
    body that cannot be read raises nothing. *)
Theorem ignored_without_reading_body
    (mime : string -> option string)
    (fs : gmap string (list byte) -> string -> list byte -> bool)
    (r : Response) (image_dir : string) (w : World) :
  resource_type (request r) <> "image" \/
  headers r !! "content-type" = None \/
  Str.startswith (content_type_of r) "image/" = false ->
  save_response_images mime fs r image_dir w = (Ok tt, w).
Proof.
  intros H. apply save_not_image. intros [Hres Hct].
  destruct H as [H | [H | H]]; [by apply H | | congruence].
  unfold content_type_of in Hct. rewrite H in Hct. discriminate.
Qed.

Lemma ignored_without_reading_body_witness :
  save_response_images cpython_guess_extension fs_accept_all untyped_response
    "output/images" initial_world
  = (Ok tt, initial_world).
Proof.
  apply (ignored_without_reading_body cpython_guess_extension fs_accept_all
           untyped_response "output/images" initial_world).
  right. left. reflexivity.
Defined.

(** What one interceptor task does to the hash set and the trace. *)
Lemma interceptor_step mime fs r dir w :
  snd (save_response_images mime fs r dir w) = w \/
  exists b,
    is_image_response r /\ body r = Ok b /\ b <> [] /\
    (digest_of b ∉ saved_hashes w) /\
    saved_hashes (snd (save_response_images mime fs r dir w))
    = {[digest_of b]} ∪ saved_hashes w /\
    ((fs (disk w) (image_path mime r dir b) b = true /\
      trace (snd (save_response_images mime fs r dir w))
      = trace w ++ [EvWrite (image_path mime r dir b) b]) \/
     (fs (disk w) (image_path mime r dir b) b = false /\
      trace (snd (save_response_images mime fs r dir w)) = trace w)).
Proof.
  destruct (save_cases mime fs r dir w) as [H | (b & Hi & Hb & Hne & Hfresh)]; [by left|].
  right. exists b. rewrite (save_fresh_digest mime fs r dir w b Hi Hb Hne Hfresh).
  destruct (fs (disk w) (image_path mime r dir b) b); cbn [snd saved_hashes trace];
    (do 5 (split; [done|])); [left | right]; by split.
Qed.

(** X2. The hash set only grows, by at most one digest per response; after a
    run it holds what it held before and the digests of the non-empty
    bodies of the image responses, whatever their order and whatever the
    file system did. *)
Theorem hash_set_only_grows
    (mime : string -> option string)
    (fs : gmap string (list byte) -> string -> list byte -> bool)
    (image_dir : string) (responses : list Response) (w : World) :
  saved_hashes w ⊆ saved_hashes (run_interceptors mime fs image_dir responses w) /\
  (size (saved_hashes (run_interceptors mime fs image_dir responses w))
   <= size (saved_hashes w) + length responses)%nat /\
  (forall d,
     d ∈ saved_hashes (run_interceptors mime fs image_dir responses w) <->
     d ∈ saved_hashes w \/
     exists r b, In r responses /\ is_image_response r /\ body r = Ok b /\ b <> [] /\
                 d = digest_of b).
Proof.
  split; [apply saved_hashes_run|].
  cut ((size (saved_hashes (run_interceptors mime fs image_dir responses w))
        <= size (saved_hashes w) + length responses)%nat /\
       (forall d,
          d ∈ saved_hashes (run_interceptors mime fs image_dir responses w) ->
          d ∈ saved_hashes w \/
          exists r b, In r responses /\ is_image_response r /\ body r = Ok b /\ b <> [] /\
                      d = digest_of b)).
  { intros [Hsize Hfrom]. split; [exact Hsize|]. intros d. split; [apply Hfrom|].
    intros [Hd | (r & b & Hin & Hi & Hb & Hne & ->)].
    - by apply (saved_hashes_run mime fs image_dir responses w).
    - apply (saved_after_run mime fs image_dir responses w r b); try done.
      by apply list_elem_of_In. }
  revert w. induction responses as [|r rs IH]; intros w.
  { simpl. split; [lia | by left]. }
  change (run_interceptors mime fs image_dir (r :: rs) w)
    with (run_interceptors mime fs image_dir rs (snd (save_response_images mime fs r image_dir w))).
  destruct (IH (snd (save_response_images mime fs r image_dir w))) as [Hsize Hfrom].
  destruct (interceptor_step mime fs r image_dir w)
    as [Hsame | (b & Hi & Hb & Hne & Hfresh & Hset & _)].
  - rewrite Hsame in *. split; [simpl; lia|].
    intros d Hd. destruct (Hfrom d Hd) as [H | (r' & b' & Hin & H)]; [by left|].
    right. exists r', b'. split; [by right | exact H].
  - rewrite Hset in Hsize, Hfrom.
    rewrite size_union, size_singleton in Hsize by set_solver.
    split; [simpl; lia|].
    intros d Hd. destruct (Hfrom d Hd) as [H | (r' & b' & Hin & H)].
    + apply elem_of_union in H as [H | H]; [|by left].
      apply elem_of_singleton in H. right. exists r, b.
      split; [by left|]. exact (conj Hi (conj Hb (conj Hne H))).
    + right. exists r', b'. split; [by right | exact H].
Qed.

(** X3. The number of image files written never exceeds the number of digests
    recorded, which is what the closing line of [main] prints; the two are
    equal when no write is refused. *)
Theorem files_written_at_most_digests
    (mime : string -> option string)
    (fs : gmap string (list byte) -> string -> list byte -> bool)
    (image_dir : string) (responses : list Response) (w : World) :
  (writes (trace (run_interceptors mime fs image_dir responses w)) + size (saved_hashes w)
   <= writes (trace w) + size (saved_hashes (run_interceptors mime fs image_dir responses w)))%nat /\
  ((forall d p x, fs d p x = true) ->
   (writes (trace (run_interceptors mime fs image_dir responses w)) + size (saved_hashes w)
    = writes (trace w) + size (saved_hashes (run_interceptors mime fs image_dir responses w)))%nat).
Proof.
  revert w. induction responses as [|r rs IH]; intros w.
  { simpl. split; [lia | intros _; lia]. }
  change (run_interceptors mime fs image_dir (r :: rs) w)
    with (run_interceptors mime fs image_dir rs (snd (save_response_images mime fs r image_dir w))).
  destruct (IH (snd (save_response_images mime fs r image_dir w))) as [Hle Heq].
  destruct (interceptor_step mime fs r image_dir w)
    as [Hsame | (b & Hi & Hb & Hne & Hfresh & Hset & Htrace)].
  - rewrite Hsame in *. split; [exact Hle | exact Heq].
  - rewrite Hset in Hle, Heq.
    rewrite size_union, size_singleton in Hle, Heq by set_solver.
    destruct Htrace as [[Hfs Ht] | [Hfs Ht]]; rewrite Ht in Hle, Heq.
    + unfold writes in *. rewrite count_app in Hle, Heq.
      change (count is_write [EvWrite _ _]) with 1%nat in *.
      split; [lia|]. intros Hall. specialize (Heq Hall). lia.
    + split; [lia|]. intros Hall. rewrite Hall in Hfs. discriminate.
Qed.

(** ** The extension of an image file *)

Lemma contains_app c s t : contains c (s +:+ t) = contains c s || contains c t.
Proof.
  induction s as [|a s IH]; [reflexivity|].
  rewrite append_cons. simpl. rewrite IH. by rewrite orb_assoc.
Qed.

Lemma split_no_sep sep s x : In x (Str.split sep s) -> contains sep x = false.
Proof.
  revert x. induction s as [|c s IH]; intros x; simpl.
  - intros [<- | []]. reflexivity.
  - destruct (Ascii.eqb c sep) eqn:Hc.
    + intros [<- | H]; [reflexivity | by apply IH].
    + destruct (Str.split sep s) as [|y ys].
      * intros [<- | []]. simpl. by rewrite Hc.
      * intros [<- | H].
        -- simpl. rewrite Hc. apply IH. by left.
        -- apply IH. by right.
Qed.

Lemma last_in_or_default {A} (l : list A) (d : A) :
  List.last l d = d \/ In (List.last l d) l.
Proof.
  induction l as [|a l IH]; [by left|].
  destruct l as [|b l]; [right; by left|].
  change (List.last (a :: b :: l) d) with (List.last (b :: l) d).
  destruct IH as [IH | IH]; [by left | right; by right].
Qed.

Lemma name_no_slash p : contains "/" (Path.name p) = false.
Proof.
  unfold Path.name.
  match goal with
  | |- contains _ (List.last ?l ?d) = false =>
      destruct (last_in_or_default l d) as [-> | H]; [reflexivity|]
  end.
  apply filter_In in H as [H _]. by apply split_no_sep in H.
Qed.

Lemma rfind_go_spec c s i0 found i :
  Str.rfind_go c s i0 found = Some i ->
  found = Some i \/ ((i0 <= i)%nat /\ String.get (i - i0) s = Some c).
Proof.
  revert i0 found. induction s as [|a s IH]; intros i0 found; simpl.
  - intros H. by left.
  - intros H. apply IH in H as [H | [Hle Hget]].
    + destruct (Ascii.eqb_spec a c) as [Hac|_]; [|by left].
      injection H as <-. right. split; [lia|]. rewrite Nat.sub_diag. by rewrite Hac.
    + right. split; [lia|].
      replace (i - i0)%nat with (S (i - S i0)) by lia. exact Hget.
Qed.

Lemma substring_from_get k m s c :
  String.get k s = Some c ->
  String.substring k (S m) s = String c (String.substring (S k) m s).
Proof.
  revert k. induction s as [|a s IH]; intros k; [by destruct k|].
  destruct k as [|k]; cbn [String.get String.substring].
  - intros [= ->]. reflexivity.
  - intros H. exact (IH k H).
Qed.

Lemma contains_substring c n m s :
  contains c s = false -> contains c (String.substring n m s) = false.
Proof.
  revert n m. induction s as [|a s IH]; intros n m H.
  - by destruct n, m.
  - simpl in H. apply orb_false_iff in H as [Ha Hs].
    destruct n as [|n]; [destruct m as [|m]; [reflexivity|]|]; simpl.
    + rewrite Ha. by apply IH.
    + by apply IH.
Qed.

(** [Path(url).suffix] is empty or starts with a dot, and has no slash. *)
Lemma suffix_shape p :
  Path.suffix p = "" \/
  exists rest, Path.suffix p = String "." rest /\ contains "/" rest = false.
Proof.
  unfold Path.suffix. cbv zeta.
  destruct (Str.rfind "." (Path.name p)) as [i|] eqn:Hr; [|by left].
  destruct ((0 <? i) && (i <? String.length (Path.name p) - 1))%nat eqn:Hc; [|by left].
  right. apply andb_true_iff in Hc as [H0 H1]. apply Nat.ltb_lt in H0, H1.
  apply rfind_go_spec in Hr as [Hr | [_ Hget]]; [discriminate|].
  rewrite Nat.sub_0_r in Hget.
  replace (String.length (Path.name p) - i)%nat
    with (S (String.length (Path.name p) - i - 1)) by lia.
  rewrite (substring_from_get _ _ _ _ Hget). eexists. split; [reflexivity|].
  apply contains_substring, name_no_slash.
Qed.

(** X4. The extension is never empty, whatever the table returns; when it
    comes from the URL or is the default, it is a dot followed by
    characters among which there is no slash. *)
Theorem extension_never_empty (mime : string -> option string) (content_type url : string) :
  guess_extension mime content_type url <> "" /\
  (undeclared mime content_type ->
   exists rest,
     guess_extension mime content_type url = String "." rest /\
     contains "/" rest = false).
Proof.
  assert (Hurl : exists rest,
             (if Str.truthy (Path.suffix url) then Path.suffix url else ".img")
             = String "." rest /\ contains "/" rest = false).
  { destruct (suffix_shape url) as [-> | (rest & -> & Hrest)].
    - by exists "img".
    - by exists rest. }
  split.
  - unfold guess_extension. cbv zeta.
    destruct Hurl as (rest & -> & _).
    destruct (Str.truthy content_type); [|discriminate].
    destruct (mime _) as [e|]; [|discriminate].
    destruct (Str.truthy e) eqn:He; [|discriminate].
    intros ->. discriminate.
  - intros Hu. rewrite (guess_extension_undeclared mime content_type url Hu). exact Hurl.
Qed.

(** ** The files of a snapshot *)

Ltac orb_false H :=
  cbn [contains] in H;
  repeat (let Hc := fresh "Hc" in apply orb_false_iff in H as [Hc H]).

Ltac use_eqb_false :=
  repeat match goal with
         | Hx : Ascii.eqb _ _ = false |- _ => rewrite Hx
         end.

Lemma uint_chars c u :
  contains c "0123456789" = false -> contains c (NilEmpty.string_of_uint u) = false.
Proof.
  intros H. orb_false H.
  induction u as [|u IH|u IH|u IH|u IH|u IH|u IH|u IH|u IH|u IH|u IH];
    cbn [NilEmpty.string_of_uint contains]; [reflexivity|..];
    rewrite IH; use_eqb_false; reflexivity.
Qed.

Lemma decimal_chars c n :
  contains c "0123456789" = false -> contains c (Str.decimal n) = false.
Proof.
  intros H. unfold Str.decimal, NilZero.string_of_uint.
  destruct (N.to_uint (Z.to_N n)) as [|u|u|u|u|u|u|u|u|u|u];
    [|by apply uint_chars..].
  orb_false H. cbn [contains]. use_eqb_false. reflexivity.
Qed.

Lemma zfill_chars c k s :
  Ascii.eqb "0" c = false -> contains c s = false -> contains c (Str.zfill k s) = false.
Proof.
  intros H0 Hs. unfold Str.zfill. rewrite contains_app, Hs, orb_false_r.
  induction (k - String.length s)%nat as [|m IH]; [reflexivity|].
  cbn [repeat string_of_list_ascii contains]. by rewrite H0, IH.
Qed.

(** [f"{n:04d}"] is made of digits and, for a negative [n], a sign. *)
Lemma format_04d_chars c n :
  contains c "0123456789-" = false -> contains c (Str.format_04d n) = false.
Proof.
  intros H.
  assert (Hd : contains c "0123456789" = false).
  { orb_false H. cbn [contains]. use_eqb_false. reflexivity. }
  assert (H0 : Ascii.eqb "0" c = false) by (orb_false H; assumption).
  assert (Hm : Ascii.eqb "-" c = false).
  { orb_false H. use_eqb_false. assumption. }
  unfold Str.format_04d. destruct (n <? 0).
  - rewrite contains_app. cbn [contains]. rewrite Hm. cbn [orb].
    apply zfill_chars; [exact H0 | by apply decimal_chars].
  - apply zfill_chars; [exact H0 | by apply decimal_chars].
Qed.

Lemma replace_slash_gone s : contains "/" (Str.replace s "/" "_") = false.
Proof.
  unfold Str.replace. induction s as [|a s IH]; [reflexivity|].
  cbn [Str.replace_go String.prefix String.length Nat.sub].
  destruct (ascii_dec "/" a) as [Heq|Hne].
  - assert (Hp : String.prefix "" s = true) by (by destruct s).
    rewrite Hp, contains_app, IH. reflexivity.
  - cbn [contains]. rewrite IH, orb_false_r. apply Ascii.eqb_neq. congruence.
Qed.

Lemma split_nonempty sep s : Str.split sep s <> [].
Proof.
  destruct s as [|c s]; [discriminate|]. simpl.
  destruct (Ascii.eqb c sep); [discriminate|].
  destruct (Str.split sep s); discriminate.
Qed.

Lemma split_after_sep sep d f :
  contains sep f = false ->
  Str.split sep (d +:+ String sep f) = Str.split sep d ++ [f].
Proof.
  intros Hf. induction d as [|c d IH].
  - change ("" +:+ String sep f) with (String sep f). simpl.
    by rewrite Ascii.eqb_refl, (split_without_sep sep f Hf).
  - rewrite append_cons. simpl. rewrite IH.
    destruct (Ascii.eqb c sep); [reflexivity|].
    pose proof (split_nonempty sep d) as Hne.
    destruct (Str.split sep d) as [|x xs]; [done | reflexivity].
Qed.

(** The last component of [d / f], for a plain file name [f]. *)
Lemma name_of_join d f :
  contains "/" f = false -> f <> "" -> f <> "." ->
  Path.name (Path.join d f) = f.
Proof.
  intros Hf He Hd. unfold Path.name, Path.join.
  change ("/" +:+ f) with (String "/" f).
  rewrite (split_after_sep "/" d f Hf), List.filter_app. cbn [List.filter].
  destruct (String.eqb_spec f "") as [|_]; [done|].
  destruct (String.eqb_spec f ".") as [|_]; [done|].
  cbn [negb andb]. apply last_last.
Qed.

(** X5. The name of a snapshot file has no slash, whatever the frame's URL or
    name is, so the file lies in the HTML directory itself. *)
Theorem html_file_lies_in_html_dir (page_index : Z) (html_dir name : string) :
  contains "/" (safe_name name) = false /\
  contains "/" (html_name page_index name) = false /\
  Path.name (html_file page_index html_dir name) = html_name page_index name.
Proof.
  assert (Hs : contains "/" (safe_name name) = false) by apply replace_slash_gone.
  assert (Hn : contains "/" (html_name page_index name) = false).
  { unfold html_name. rewrite !contains_app, Hs, format_04d_chars by reflexivity.
    reflexivity. }
  split; [exact Hs|]. split; [exact Hn|].
  apply name_of_join; [exact Hn | discriminate | discriminate].
Qed.

Lemma append_inj_head s a b : s +:+ a = s +:+ b -> a = b.
Proof.
  induction s as [|c s IH]; [done|]. rewrite !append_cons. intros [= H]. by apply IH.
Qed.

(** A field that ends at the first [c] is determined by the text. *)
Lemma delimited_prefix c a b x y :
  contains c a = false -> contains c b = false ->
  a +:+ String c x = b +:+ String c y -> a = b.
Proof.
  revert b. induction a as [|p a IH]; intros [|q b] Ha Hb.
  - done.
  - change ("" +:+ String c x) with (String c x). rewrite append_cons. intros [= <- _].
    simpl in Hb. rewrite Ascii.eqb_refl in Hb. discriminate.
  - change ("" +:+ String c y) with (String c y). rewrite append_cons. intros [= -> _].
    simpl in Ha. rewrite Ascii.eqb_refl in Ha. discriminate.
  - rewrite !append_cons. intros [= <- H]. f_equal.
    simpl in Ha, Hb. apply orb_false_iff in Ha as [_ Ha]. apply orb_false_iff in Hb as [_ Hb].
    by apply (IH b).
Qed.

(** Zero-filling does not change the number that is read back. *)
Lemma read_zfill k s :
  option_map N.of_uint (NilEmpty.uint_of_string (Str.zfill k s))
  = option_map N.of_uint (NilEmpty.uint_of_string s).
Proof.
  unfold Str.zfill. induction (k - String.length s)%nat as [|m IH]; [reflexivity|].
  cbn [repeat string_of_list_ascii]. rewrite append_cons.
  cbn [NilEmpty.uint_of_string].
  destruct (NilEmpty.uint_of_string (string_of_list_ascii (repeat "0"%char m) +:+ s))
    as [u|]; exact IH.
Qed.

Lemma read_decimal n :
  option_map N.of_uint (NilEmpty.uint_of_string (Str.decimal n)) = Some (Z.to_N n).
Proof.
  unfold Str.decimal.
  transitivity (Some (N.of_uint (N.to_uint (Z.to_N n))));
    [|by rewrite DecimalN.Unsigned.of_to].
  generalize (N.to_uint (Z.to_N n)). intros u.
  destruct u; [reflexivity|..];
    unfold NilZero.string_of_uint; rewrite NilEmpty.usu; reflexivity.
Qed.

Lemma format_04d_injective i j :
  0 <= i -> 0 <= j -> Str.format_04d i = Str.format_04d j -> i = j.
Proof.
  intros Hi Hj H.
  assert (Hr : forall n, 0 <= n ->
            option_map N.of_uint (NilEmpty.uint_of_string (Str.format_04d n))
            = Some (Z.to_N n)).
  { intros n Hn. unfold Str.format_04d. destruct (Z.ltb_spec n 0); [lia|].
    by rewrite read_zfill, read_decimal. }
  pose proof (Hr i Hi) as H1. rewrite H, (Hr j Hj) in H1. injection H1. lia.
Qed.

(** X6. The snapshot files of two pages are never the same file, whatever the
    frames are called: a page does not overwrite the files of another. *)
Theorem pages_never_share_a_file (i j : Z) (html_dir name1 name2 : string) :
  0 <= i -> 0 <= j ->
  html_file i html_dir name1 = html_file j html_dir name2 -> i = j.
Proof.
  intros Hi Hj H. unfold html_file, Path.join, html_name in H.
  do 3 apply append_inj_head in H.
  apply (delimited_prefix "_" _ _ (safe_name name1 +:+ ".html")
           (safe_name name2 +:+ ".html")) in H;
    [by apply format_04d_injective | by apply format_04d_chars..].
Qed.

(** Within one page, two frames may share a file: "a/b" and "a_b" do. *)
Lemma pages_never_share_a_file_witness :
  html_file 1 "output/html" "a/b" = html_file 1 "output/html" "a_b" /\ 1 = 1.
Proof.
  split; [reflexivity|].
  apply (pages_never_share_a_file 1 1 "output/html" "a/b" "a_b"); [lia | lia | reflexivity].
Defined.

(** ** The snapshot of a page *)

Lemma dict_set_NoDup k v d : List.NoDup (map fst d) -> List.NoDup (map fst (dict_set k v d)).
Proof.
  induction d as [|[k0 v0] d IH]; simpl.
  - intros _. apply List.NoDup_cons_iff. split; [intros []|constructor].
  - intros H. apply List.NoDup_cons_iff in H as [Hnin Hnd].
    destruct (String.eqb_spec k0 k) as [_|Hne]; simpl.
    + apply List.NoDup_cons_iff. by split.
    + apply List.NoDup_cons_iff. split; [|by apply IH].
      rewrite dict_set_keys. intros [Heq | Hin]; [congruence | contradiction].
Qed.

Lemma dict_set_entries k v d k' v' :
  In (k', v') (dict_set k v d) -> (k' = k /\ v' = v) \/ In (k', v') d.
Proof.
  induction d as [|[k0 v0] d IH]; simpl.
  - intros [[= <- <-] | []]. by left.
  - destruct (String.eqb_spec k0 k) as [Heq|Hne]; simpl.
    + intros [[= <- <-] | H]; [left; by split | right; by right].
    + intros [H | H]; [right; by left|].
      destruct (IH H) as [H' | H']; [by left | right; by right].
Qed.

Lemma dict_set_has k v d : In (k, v) (dict_set k v d).
Proof.
  induction d as [|[k0 v0] d IH]; simpl; [by left|].
  destruct (String.eqb_spec k0 k) as [->|Hne]; [by left | by right].
Qed.

Lemma dict_set_other k v d k' v' :
  k' <> k -> In (k', v') d -> In (k', v') (dict_set k v d).
Proof.
  intros Hne. induction d as [|[k0 v0] d IH]; simpl; [intros []|].
  intros [[= -> ->] | H].
  - destruct (String.eqb_spec k' k) as [|_]; [done | by left].
  - destruct (String.eqb_spec k0 k) as [_|_]; right; [exact H | by apply IH].
Qed.

Lemma dict_set_length k v d : (length (dict_set k v d) <= S (length d))%nat.
Proof.
  induction d as [|[k0 v0] d IH]; simpl; [lia|].
  destruct (String.eqb k0 k); simpl; lia.
Qed.

Lemma read_frames_NoDup l d :
  List.NoDup (map fst d) -> List.NoDup (map fst (read_frames l d)).
Proof.
  revert d. induction l as [|g l IH]; intros d Hd; [exact Hd|].
  simpl. destruct (content g); apply IH; [by apply dict_set_NoDup | exact Hd].
Qed.

Lemma read_frames_length l d :
  (length (read_frames l d) <= length d + length l)%nat.
Proof.
  revert d. induction l as [|g l IH]; intros d; simpl; [lia|].
  destruct (content g) as [m|e].
  - etransitivity; [apply IH|].
    pose proof (dict_set_length (frame_key g) m d) as H. unfold frame_key in H. lia.
  - etransitivity; [apply IH|]. lia.
Qed.

Lemma read_frames_entries l d k v :
  In (k, v) (read_frames l d) ->
  In (k, v) d \/ exists f, In f l /\ frame_key f = k /\ content f = Ok v.
Proof.
  revert d. induction l as [|g l IH]; intros d; simpl; [by left|].
  destruct (content g) as [m|e] eqn:Hc; intros H; apply IH in H.
  - destruct H as [H | (f & Hin & Hf)].
    + apply dict_set_entries in H as [[-> ->] | H]; [|by left].
      right. exists g. split; [by left|]. by split.
    + right. exists f. split; [by right | exact Hf].
  - destruct H as [H | (f & Hin & Hf)]; [by left|].
    right. exists f. split; [by right | exact Hf].
Qed.

Lemma read_frames_keeps l d k v :
  In (k, v) d ->
  (forall g m, In g l -> content g = Ok m -> frame_key g <> k) ->
  In (k, v) (read_frames l d).
Proof.
  revert d. induction l as [|g l IH]; intros d Hin Hl; [exact Hin|].
  simpl. destruct (content g) as [m|e] eqn:Hc; apply IH.
  - apply dict_set_other; [|exact Hin].
    intros Heq. apply (Hl g m); [by left | exact Hc | by symmetry].
  - intros g' m' Hg'. apply Hl. by right.
  - exact Hin.
  - intros g' m' Hg'. apply Hl. by right.
Qed.

(** X7. The snapshot of a page has one entry per key: no key twice, no more
    entries than frames, every entry the markup of a frame that was read,
    and for frames with the same key the markup of the last one read. *)
Theorem snapshot_has_one_entry_per_key (frames : list Frame) :
  List.NoDup (map fst (read_frames frames [])) /\
  (length (read_frames frames []) <= length frames)%nat /\
  (forall k v,
     In (k, v) (read_frames frames []) ->
     exists f, In f frames /\ frame_key f = k /\ content f = Ok v) /\
  (forall before f after markup,
     frames = before ++ f :: after ->
     content f = Ok markup ->
     (forall g m, In g after -> content g = Ok m -> frame_key g <> frame_key f) ->
     In (frame_key f, markup) (read_frames frames [])).
Proof.
  split; [apply read_frames_NoDup; constructor|].
  split; [apply (read_frames_length frames [])|].
  split.
  - intros k v H. apply read_frames_entries in H as [[] | H]. exact H.
  - intros before f after markup -> Hc Hafter.
    rewrite read_frames_app. simpl. rewrite Hc.
    apply read_frames_keeps; [apply dict_set_has | exact Hafter].
Qed.

(** ** Where the capture loop can stop *)

(** At page [n] the counter is at most [n - 1]: the first snapshot never
    counts as unchanged. *)
Lemma counter_below_page pf n :
  (1 <= n)%nat -> unchanged_count (vars_after pf n) <= Z.of_nat n - 1.
Proof.
  intros Hn.
  destruct (Z_le_gt_dec (unchanged_count (vars_after pf n)) (Z.of_nat n - 1)) as [|Hgt];
    [done|].
  exfalso. apply (first_snapshot_changed pf).
  apply (proj1 (counter_stable pf n (unchanged_count (vars_after pf n)))); lia.
Qed.

(** X8. The loop is never left by [break] before page [stop_unchanged + 1]:
    when it breaks at page [k], the counter lies between [stop_unchanged]
    and [k - 1], [k] snapshots were taken and [k - 1] keys pressed. *)
Theorem no_stop_before_enough_pages
    (fs : gmap string (list byte) -> string -> list byte -> bool)
    (pf : Z -> list Frame) (args : Args) (w : World) (k : Z) (v : LoopVars) :
  fst (main fs pf args w) = Ok (Broke k, v) ->
  1 <= k <= max_pages args /\
  stop_unchanged args + 1 <= k /\
  stop_unchanged args <= unchanged_count v <= k - 1 /\
  0 <= unchanged_count v /\
  last_hash v = fingerprint_at pf k /\
  exists t,
    trace (snd (main fs pf args w)) = trace w ++ t /\
    Z.of_nat (iterations t) = k /\ Z.of_nat (page_turns t) = k - 1.
Proof.
  intros Hr.
  destruct (main_outcome fs pf args w (Broke k) v Hr)
    as (t & Ht & Hturns & Hk & -> & Hit & Hrun & _).
  assert (Hge : stop_unchanged args <= unchanged_count (vars_after pf (Z.to_nat k))).
  { apply counter_stable. by replace (Z.of_nat (Z.to_nat k)) with k by lia. }
  pose proof (counter_below_page pf (Z.to_nat k) ltac:(lia)) as Hle.
  pose proof (count_nonneg pf (Z.to_nat k)) as Hnn.
  split; [exact Hk|]. split; [lia|]. split; [lia|]. split; [exact Hnn|]. split.
  - replace (Z.to_nat k) with (S (Z.to_nat (k - 1))) by lia.
    rewrite last_hash_after. f_equal. lia.
  - exists t. split; [exact Ht|]. rewrite Hturns, Hit. simpl. lia.
Qed.

Lemma no_stop_before_enough_pages_witness :
  1 <= 3 <= max_pages (args_of 300 2) /\
  stop_unchanged (args_of 300 2) + 1 <= 3 /\
  stop_unchanged (args_of 300 2) <= 2 <= 3 - 1 /\
  0 <= 2 /\
  fingerprint_at same_page 1 = fingerprint_at same_page 3 /\
  exists t,
    trace (snd (main fs_accept_all same_page (args_of 300 2) initial_world))
    = trace initial_world ++ t /\
    Z.of_nat (iterations t) = 3 /\ Z.of_nat (page_turns t) = 3 - 1.
Proof.
  apply (no_stop_before_enough_pages fs_accept_all same_page (args_of 300 2) initial_world 3
           {| unchanged_count := 2; last_hash := fingerprint_at same_page 1 |}).
  vm_compute. reflexivity.
Defined.

(** X9. With [--stop-unchanged] at least [--max-pages] the loop is never left
    by [break]: every page of the range is captured and a key is pressed
    after each of them. *)
Theorem large_stop_unchanged_disables_early_stop
    (fs : gmap string (list byte) -> string -> list byte -> bool)
    (pf : Z -> list Frame) (args : Args) (w : World) :
  max_pages args <= stop_unchanged args ->
  (forall d p x, fs d p x = true) ->
  exists v t,
    fst (main fs pf args w) = Ok (RanOut, v) /\
    trace (snd (main fs pf args w)) = trace w ++ t /\
    iterations t = Z.to_nat (max_pages args) /\
    page_turns t = Z.to_nat (max_pages args).
Proof.
  intros Hbig Hfs.
  destruct (main_spec fs pf args w) as (_ & _ & _ & _ & _ & Hall).
  destruct (Hall Hfs) as ([k|] & v & Hr).
  - exfalso. destruct (main_outcome fs pf args w (Broke k) v Hr)
      as (t & _ & _ & Hk & -> & _ & Hrun & _).
    assert (Hge : stop_unchanged args <= unchanged_count (vars_after pf (Z.to_nat k))).
    { apply counter_stable. by replace (Z.of_nat (Z.to_nat k)) with k by lia. }
    pose proof (counter_below_page pf (Z.to_nat k) ltac:(lia)). lia.
  - destruct (main_outcome fs pf args w RanOut v Hr) as (t & Ht & Hturns & _ & Hit & _).
    exists v, t. split; [exact Hr|]. split; [exact Ht|]. split; [exact Hit|].
    rewrite Hturns. exact Hit.
Qed.

Lemma large_stop_unchanged_disables_early_stop_witness :
  exists v t,
    fst (main fs_accept_all same_page (args_of 5 5) initial_world) = Ok (RanOut, v) /\
    trace (snd (main fs_accept_all same_page (args_of 5 5) initial_world))
    = trace initial_world ++ t /\
    iterations t = Z.to_nat (max_pages (args_of 5 5)) /\
    page_turns t = Z.to_nat (max_pages (args_of 5 5)).
Proof.
  apply (large_stop_unchanged_disables_early_stop fs_accept_all same_page (args_of 5 5)
           initial_world); [simpl; lia | reflexivity].
Defined.

(** X11. When no frame can be read (or the page has none) the snapshot is
    empty: nothing is written and the fingerprint is the digest of the
    empty input. *)
Theorem unreadable_page_has_empty_snapshot
    (fs : gmap string (list byte) -> string -> list byte -> bool)
    (page_index : Z) (html_dir : string) (frames : list Frame) (w : World) :
  (forall f, In f frames -> exists e, content f = Raise e) ->
  read_frames frames [] = [] /\
  save_frame_html fs page_index html_dir (read_frames frames []) w
  = (Ok "e3b0c44298fc1c149afbf4c8996fb92427ae41e4649b934ca495991b7852b855", w).
Proof.
  intros Hall.
  assert (Hnil : read_frames frames [] = []).
  { induction frames as [|f l IH]; [reflexivity|]. simpl.
    destruct (Hall f (or_introl eq_refl)) as [e ->]. apply IH.
    intros g Hg. apply Hall. by right. }
  split; [exact Hnil|]. rewrite Hnil.
  unfold save_frame_html. cbn [save_frames]. unfold bind, ret. by rewrite sha256_empty.
Qed.

Lemma unreadable_page_has_empty_snapshot_witness :
  read_frames [detached_frame "https://ads.example/slot"] [] = [] /\
  save_frame_html fs_accept_all 4 "output/html"
    (read_frames [detached_frame "https://ads.example/slot"] []) initial_world
  = (Ok "e3b0c44298fc1c149afbf4c8996fb92427ae41e4649b934ca495991b7852b855", initial_world).
Proof.
  apply (unreadable_page_has_empty_snapshot fs_accept_all 4 "output/html"
           [detached_frame "https://ads.example/slot"] initial_world).
  intros f [<- | []]. by eexists.
Defined.

(** ** The files [save_frame_html] writes *)

Lemma write_events_count f i d entries :
  (forall p x, f (EvWrite p x) = false) ->
  count f (map (write_event i d) entries) = 0%nat.
Proof.
  intros Hf. unfold count. induction entries as [|kv l IH]; [reflexivity|].
  simpl. unfold write_event at 1. by rewrite Hf.
Qed.

Lemma write_all_lookup i d entries files p :
  write_all i d entries files !! p = files !! p \/
  exists name markup,
    In (name, markup) entries /\ p = html_file i d name /\
    write_all i d entries files !! p = Some (encode_utf8 markup).
Proof.
  revert files. induction entries as [|[name markup] l IH]; intros files; [by left|].
  change (write_all i d ((name, markup) :: l) files)
    with (write_all i d l (<[html_file i d name := encode_utf8 markup]> files)).
  destruct (IH (<[html_file i d name := encode_utf8 markup]> files))
    as [H | (n & m & Hin & Hp & H)].
  - destruct (decide (html_file i d name = p)) as [Heq|Hne].
    + right. exists name, markup. split; [by left|]. split; [done|].
      rewrite H. subst p. apply lookup_insert_eq.
    + left. rewrite H. by apply lookup_insert_ne.
  - right. exists n, m. split; [by right|]. by split.
Qed.

(** The entries are written one after the other; the first refused write
    ends the call, and the files written before it stay. *)
Lemma save_frames_run fs i d items combined w :
  exists done rest,
    items = done ++ rest /\
    snd (save_frames fs i d items combined w)
    = mk_world (saved_hashes w) (write_all i d done (disk w))
        (trace w ++ map (write_event i d) done) /\
    ((rest = [] /\ fst (save_frames fs i d items combined w) = Ok (feed items combined)) \/
     (exists name markup rest',
        rest = (name, markup) :: rest' /\
        fs (write_all i d done (disk w)) (html_file i d name) (encode_utf8 markup) = false /\
        fst (save_frames fs i d items combined w) = Raise (OSError (html_file i d name)))).
Proof.
  revert combined w. induction items as [|[name markup] items IH]; intros combined w.
  { exists [], []. split; [reflexivity|]. split.
    - simpl. rewrite app_nil_r. by destruct w.
    - left. by split. }
  cbn [save_frames]. unfold bind, write_text, write_bytes.
  change (Path.join d _) with (html_file i d name).
  destruct (fs (disk w) (html_file i d name) (encode_utf8 markup)) eqn:Hfs.
  - set (w1 := mk_world (saved_hashes w)
                 (<[html_file i d name := encode_utf8 markup]> (disk w))
                 (trace w ++ [EvWrite (html_file i d name) (encode_utf8 markup)])).
    destruct (IH (update combined (encode_utf8 markup)) w1)
      as (done & rest & Hitems & Hw & Hres).
    exists ((name, markup) :: done), rest.
    split; [by rewrite Hitems|]. split.
    + rewrite Hw. unfold w1. cbn [saved_hashes disk trace].
      by rewrite <- app_assoc.
    + destruct Hres as [[-> Hok] | (n & m & rest' & -> & Hno & Hraise)].
      * left. split; [reflexivity | exact Hok].
      * right. exists n, m, rest'. split; [reflexivity|]. split; [exact Hno | exact Hraise].
  - exists [], ((name, markup) :: items). split; [reflexivity|]. split.
    + simpl. rewrite app_nil_r. by destruct w.
    + right. exists name, markup, items. split; [reflexivity|]. by split.
Qed.

(** X12. A call of [save_frame_html] that returns has written one file per
    entry, in the order of the snapshot, each holding the encoded markup,
    has left the hash set alone, and returns the fingerprint. *)
Theorem snapshot_written_entry_by_entry
    (fs : gmap string (list byte) -> string -> list byte -> bool)
    (page_index : Z) (html_dir : string) (contents : list (string * string)) (w : World)
    (h : string) :
  fst (save_frame_html fs page_index html_dir contents w) = Ok h ->
  h = fingerprint contents /\
  snd (save_frame_html fs page_index html_dir contents w)
  = mk_world (saved_hashes w) (write_all page_index html_dir contents (disk w))
      (trace w ++ map (write_event page_index html_dir) contents).
Proof.
  destruct (save_frames_run fs page_index html_dir contents sha256_new w)
    as (done & rest & Hitems & Hw & Hres).
  unfold save_frame_html, bind.
  destruct (save_frames fs page_index html_dir contents sha256_new w) as [[c|e] w'];
    cbn [fst snd ret] in *; [|discriminate].
  destruct Hres as [[-> Hok] | (n & m & rest' & _ & _ & Hraise)]; [|discriminate].
  rewrite app_nil_r in Hitems. subst done.
  intros [= <-]. injection Hok as ->. split; [apply hexdigest_feed | exact Hw].
Qed.

(** Two entries, page 3. *)
Lemma snapshot_written_entry_by_entry_witness :
  fingerprint [("https://read.amazon.com/", "<p>x</p>"); ("frame_inner", "y")]
  = fingerprint [("https://read.amazon.com/", "<p>x</p>"); ("frame_inner", "y")] /\
  snd (save_frame_html fs_accept_all 3 "output/html"
         [("https://read.amazon.com/", "<p>x</p>"); ("frame_inner", "y")] initial_world)
  = mk_world ∅
      (write_all 3 "output/html"
         [("https://read.amazon.com/", "<p>x</p>"); ("frame_inner", "y")] ∅)
      [EvWrite "output/html/page_0003_https_read.amazon.com_.html"
         (encode_utf8 "<p>x</p>");
       EvWrite "output/html/page_0003_frame_inner.html" (encode_utf8 "y")].
Proof.
  apply (snapshot_written_entry_by_entry fs_accept_all 3 "output/html"
           [("https://read.amazon.com/", "<p>x</p>"); ("frame_inner", "y")] initial_world).
  reflexivity.
Defined.

(** ** What the capture loop adds to the trace and the disk *)

Lemma save_frame_html_run fs i d contents w :
  exists done rest,
    contents = done ++ rest /\
    snd (save_frame_html fs i d contents w)
    = mk_world (saved_hashes w) (write_all i d done (disk w))
        (trace w ++ map (write_event i d) done) /\
    ((rest = [] /\ fst (save_frame_html fs i d contents w) = Ok (fingerprint contents)) \/
     (exists name markup rest',
        rest = (name, markup) :: rest' /\
        fst (save_frame_html fs i d contents w) = Raise (OSError (html_file i d name)))).
Proof.
  destruct (save_frames_run fs i d contents sha256_new w)
    as (done & rest & Hitems & Hw & Hres).
  exists done, rest. split; [exact Hitems|].
  unfold save_frame_html, bind.
  destruct (save_frames fs i d contents sha256_new w) as [[c|e] w'];
    cbn [fst snd ret] in *; (split; [exact Hw|]).
  - destruct Hres as [[-> Hok] | (n & m & rest' & _ & _ & Hraise)]; [|discriminate].
    left. split; [reflexivity|]. injection Hok as ->. by rewrite hexdigest_feed.
  - destruct Hres as [[_ Hok] | (n & m & rest' & -> & _ & Hraise)]; [discriminate|].
    injection Hraise as ->. right. exists n, m, rest'. by split.
Qed.

Lemma snapshot_file_more pf d i rest path data :
  snapshot_file pf d rest path data -> snapshot_file pf d (i :: rest) path data.
Proof.
  intros (j & name & markup & Hj & H). exists j, name, markup. split; [by right | exact H].
Qed.

Lemma loop_event_more pf d i rest e :
  loop_event pf d rest e -> loop_event pf d (i :: rest) e.
Proof.
  destruct e; simpl; try done.
  - apply snapshot_file_more.
  - intros H. by right.
Qed.

Lemma write_events_are_loop_events pf d i rest done rem :
  read_frames (pf i) [] = done ++ rem ->
  Forall (loop_event pf d (i :: rest)) (map (write_event i d) done).
Proof.
  intros Hc. apply List.Forall_forall. intros e He.
  apply in_map_iff in He as ([name markup] & <- & Hin).
  exists i, name, markup. split; [by left|]. split; [|by split].
  rewrite Hc. apply in_or_app. by left.
Qed.

Lemma capture_loop_events fs pf args paths indices vars w :
  exists t,
    trace (snd (capture_loop fs pf args paths indices vars w)) = trace w ++ t /\
    Forall (loop_event pf (html paths) indices) t /\
    (forall p,
       disk (snd (capture_loop fs pf args paths indices vars w)) !! p = disk w !! p \/
       exists data,
         disk (snd (capture_loop fs pf args paths indices vars w)) !! p = Some data /\
         snapshot_file pf (html paths) indices p data) /\
    match fst (capture_loop fs pf args paths indices vars w) with
    | Ok _ => (page_turns t <= iterations t)%nat
    | Raise r =>
        iterations t = S (page_turns t) /\
        exists i name markup,
          In i indices /\ In (name, markup) (read_frames (pf i) []) /\
          r = OSError (html_file i (html paths) name)
    end.
Proof.
  revert vars w. induction indices as [|i rest IH]; intros vars w.
  { exists []. simpl. rewrite app_nil_r. split; [done|]. split; [constructor|].
    split; [by left | done]. }
  rewrite capture_loop_cons.
  set (w1 := mk_world (saved_hashes w) (disk w) (trace w ++ [EvFrames i])).
  destruct (save_frame_html_run fs i (html paths) (read_frames (pf i) []) w1)
    as (done & rem & Hc & Hw & Hres).
  pose proof (write_events_are_loop_events pf (html paths) i rest done rem Hc) as Hev.
  assert (Hk : page_turns (map (write_event i (html paths)) done) = 0%nat)
    by (by apply write_events_count).
  assert (Hi : iterations (map (write_event i (html paths)) done) = 0%nat)
    by (by apply write_events_count).
  assert (Hd2 : forall p,
            write_all i (html paths) done (disk w) !! p = disk w !! p \/
            exists data,
              write_all i (html paths) done (disk w) !! p = Some data /\
              snapshot_file pf (html paths) (i :: rest) p data).
  { intros p. destruct (write_all_lookup i (html paths) done (disk w) p)
      as [H | (name & markup & Hin & Hp & H)]; [by left|].
    right. exists (encode_utf8 markup). split; [exact H|].
    exists i, name, markup. split; [by left|]. split; [|by split].
    rewrite Hc. apply in_or_app. by left. }
  destruct (save_frame_html fs i (html paths) (read_frames (pf i) []) w1) as [[h|e] w2];
    cbn [fst snd] in *; subst w2; subst w1; cbn [saved_hashes disk trace] in *.
  2:{ destruct Hres as [[_ Hok] | (name & markup & rest' & -> & Hraise)]; [discriminate|].
      injection Hraise as ->.
      exists (EvFrames i :: map (write_event i (html paths)) done).
      split; [by rewrite <- app_assoc|].
      split; [constructor; [by left | exact Hev]|].
      split; [exact Hd2|]. split.
      - change (EvFrames i :: ?l) with ([EvFrames i] ++ l).
        unfold iterations, page_turns in *. rewrite !count_app, Hk, Hi. reflexivity.
      - exists i, name, markup. split; [by left|]. split; [|reflexivity].
        rewrite Hc. apply in_or_app. right. by left. }
  destruct (stop_unchanged args <=? unchanged_count (compare_hash h vars)).
  { cbn [fst snd disk trace].
    exists (EvFrames i :: map (write_event i (html paths)) done
            ++ [EvPrint "No page changes detected. Stopping capture."]).
    split; [by rewrite <- !app_assoc|]. split.
    { constructor; [by left|]. apply Forall_app. split; [exact Hev|].
      constructor; [reflexivity | constructor]. }
    split; [exact Hd2|].
    change (EvFrames i :: ?l) with ([EvFrames i] ++ l).
    unfold iterations, page_turns in *. rewrite !count_app, Hk, Hi.
    unfold count. simpl. lia. }
  set (w3 := mk_world _ _ _).
  destruct (IH (compare_hash h vars) w3) as (t' & Ht' & Hev' & Hd' & Hm').
  exists (EvFrames i :: map (write_event i (html paths)) done
          ++ [EvKey "ArrowRight"; EvWait] ++ t').
  split.
  { rewrite Ht'. unfold w3. cbn [trace]. rewrite <- !app_assoc. reflexivity. }
  split.
  { constructor; [by left|]. apply Forall_app. split; [exact Hev|].
    apply Forall_app. split; [repeat constructor|].
    eapply Forall_impl; [exact Hev'|]. intros e. apply loop_event_more. }
  split.
  { intros p. destruct (Hd' p) as [H | (data & H & Hfile)].
    - rewrite H. unfold w3. cbn [disk]. apply Hd2.
    - right. exists data. split; [exact H|]. by apply snapshot_file_more. }
  assert (Hit : iterations (EvFrames i :: map (write_event i (html paths)) done
                            ++ [EvKey "ArrowRight"; EvWait] ++ t') = S (iterations t')).
  { change (EvFrames i :: ?l) with ([EvFrames i] ++ l).
    unfold iterations in *. rewrite !count_app, Hi. reflexivity. }
  assert (Hpt : page_turns (EvFrames i :: map (write_event i (html paths)) done
                            ++ [EvKey "ArrowRight"; EvWait] ++ t') = S (page_turns t')).
  { change (EvFrames i :: ?l) with ([EvFrames i] ++ l).
    unfold page_turns in *. rewrite !count_app, Hk. reflexivity. }
  rewrite Hit, Hpt.
  destruct (fst (capture_loop fs pf args paths rest (compare_hash h vars) w3)) as [out|r].
  - lia.
  - destruct Hm' as (Heq & j & name & markup & Hj & H). split; [lia|].
    exists j, name, markup. split; [by right | exact H].
Qed.

(** ** What [main] adds to the trace and the disk *)

Lemma range_in n i : In i (range 1 (n + 1)) <-> 1 <= i <= n.
Proof.
  rewrite range_from_one, in_map_iff. split.
  - intros (k & <- & Hk). apply in_seq in Hk. lia.
  - intros Hi. exists (Z.to_nat i). split; [lia|]. apply in_seq. lia.
Qed.

Lemma main_events fs pf args w :
  exists t,
    trace (snd (main fs pf args w))
    = trace w ++ opening args ++ t ++
      match fst (main fs pf args w) with
      | Ok _ => closing args (saved_hashes w)
      | Raise _ => []
      end /\
    Forall (loop_event pf (html (paths_of args)) (range 1 (max_pages args + 1))) t /\
    saved_hashes (snd (main fs pf args w)) = saved_hashes w /\
    (forall p,
       disk (snd (main fs pf args w)) !! p = disk w !! p \/
       exists data,
         disk (snd (main fs pf args w)) !! p = Some data /\
         snapshot_file pf (html (paths_of args)) (range 1 (max_pages args + 1)) p data) /\
    (iterations t <= Z.to_nat (max_pages args))%nat /\
    match fst (main fs pf args w) with
    | Ok _ => (page_turns t <= iterations t)%nat
    | Raise r =>
        iterations t = S (page_turns t) /\
        exists i name markup,
          In i (range 1 (max_pages args + 1)) /\
          In (name, markup) (read_frames (pf i) []) /\
          r = OSError (html_file i (html (paths_of args)) name)
    end.
Proof.
  rewrite main_unfold.
  set (w1 := mk_world (saved_hashes w) (disk w) (trace w ++ opening args)).
  destruct (capture_loop_events fs pf args (paths_of args) (range 1 (max_pages args + 1))
              (vars_after pf 0) w1) as (t & Ht & Hev & Hd & Hm).
  destruct (capture_loop_spec fs pf args (paths_of args) (range 1 (max_pages args + 1))
              (vars_after pf 0) w1) as (Hs & t0 & Ht0 & Hlen & _).
  assert (t0 = t) as -> by (rewrite Ht in Ht0; by apply app_inv_head in Ht0).
  assert (Hrl : length (range 1 (max_pages args + 1)) = Z.to_nat (max_pages args)).
  { rewrite range_from_one. by rewrite length_map, length_seq. }
  rewrite Hrl in Hlen.
  destruct (capture_loop fs pf args (paths_of args) (range 1 (max_pages args + 1))
              (vars_after pf 0) w1) as [[out|r] w2];
    cbn [fst snd saved_hashes disk trace] in *; exists t.
  - split; [rewrite Ht, Hs; unfold w1; cbn [saved_hashes trace]; by rewrite <- !app_assoc|].
    split; [exact Hev|]. split; [exact Hs|]. split; [exact Hd|]. split; [exact Hlen | exact Hm].
  - split; [rewrite Ht; unfold w1; cbn [trace]; by rewrite app_nil_r, <- app_assoc|].
    split; [exact Hev|]. split; [exact Hs|]. split; [exact Hd|]. split; [exact Hlen | exact Hm].
Qed.

Lemma snapshot_file_in_range pf d n path data :
  snapshot_file pf d (range 1 (n + 1)) path data ->
  exists i name markup,
    1 <= i <= n /\ In (name, markup) (read_frames (pf i) []) /\
    path = html_file i d name /\ data = encode_utf8 markup.
Proof.
  intros (i & name & markup & Hi & H). exists i, name, markup.
  split; [by apply range_in | exact H].
Qed.

Lemma html_file_name i d name : Path.name (html_file i d name) = html_name i name.
Proof.
  assert (Hs : contains "/" (safe_name name) = false) by apply replace_slash_gone.
  apply name_of_join; [|discriminate|discriminate].
  unfold html_name. rewrite !contains_app, Hs, format_04d_chars by reflexivity.
  reflexivity.
Qed.

(** X13. [main] leaves the hash set as it is, and every file write it
    completes is the write of a snapshot file: the encoded markup of an
    entry of the snapshot of a page from 1 to [max_pages], to the file
    named after the page and the entry, all in one directory. *)
Theorem main_writes_only_snapshot_files
    (fs : gmap string (list byte) -> string -> list byte -> bool)
    (pf : Z -> list Frame) (args : Args) (w : World) :
  saved_hashes (snd (main fs pf args w)) = saved_hashes w /\
  exists html_dir t,
    trace (snd (main fs pf args w)) = trace w ++ t /\
    forall path data,
      In (EvWrite path data) t ->
      exists i name markup,
        1 <= i <= max_pages args /\ In (name, markup) (read_frames (pf i) []) /\
        path = html_file i html_dir name /\
        Path.name path = html_name i name /\
        data = encode_utf8 markup.
Proof.
  destruct (main_events fs pf args w) as (t & Ht & Hev & Hs & _).
  split; [exact Hs|]. exists (html (paths_of args)). eexists. split; [exact Ht|].
  intros path data Hin.
  assert (Hfile : snapshot_file pf (html (paths_of args)) (range 1 (max_pages args + 1))
                    path data).
  { apply in_app_or in Hin as [Hin | Hin].
    { simpl in Hin. repeat (destruct Hin as [Hin | Hin]; [discriminate|]). done. }
    apply in_app_or in Hin as [Hin | Hin].
    { rewrite List.Forall_forall in Hev. exact (Hev _ Hin). }
    destruct (fst (main fs pf args w)); simpl in Hin;
      repeat (destruct Hin as [Hin | Hin]; [discriminate|]); done. }
  apply snapshot_file_in_range in Hfile as (i & name & markup & Hi & Hsnap & -> & ->).
  exists i, name, markup. split; [exact Hi|]. split; [exact Hsnap|].
  split; [reflexivity|]. split; [apply html_file_name | reflexivity].
Qed.

(** X15. However a run ends, at most [max_pages] snapshots are taken and no
    more keys are pressed than snapshots taken; every key pressed is
    ["ArrowRight"]. *)
Theorem page_turns_at_most_max_pages
    (fs : gmap string (list byte) -> string -> list byte -> bool)
    (pf : Z -> list Frame) (args : Args) (w : World) :
  exists t,
    trace (snd (main fs pf args w)) = trace w ++ t /\
    (page_turns t <= iterations t)%nat /\
    (iterations t <= Z.to_nat (max_pages args))%nat /\
    forall key, In (EvKey key) t -> key = "ArrowRight".
Proof.
  destruct (main_events fs pf args w) as (t & Ht & Hev & _ & _ & Hlen & Hm).
  eexists. split; [exact Ht|].
  assert (Hc : forall f l, count f (opening args ++ t ++ l)
                           = (count f (opening args) + count f t + count f l)%nat).
  { intros f l. rewrite !count_app. lia. }
  unfold iterations, page_turns in *. rewrite !Hc.
  change (count is_key (opening args)) with 0%nat.
  change (count is_frames (opening args)) with 0%nat.
  assert (Hz : forall f, (forall s, f (EvPrint s) = false) -> f EvClose = false ->
            count f (match fst (main fs pf args w) with
                     | Ok _ => closing args (saved_hashes w)
                     | Raise _ => []
                     end) = 0%nat).
  { intros f H1 H2. destruct (fst (main fs pf args w)); [|reflexivity].
    unfold count. simpl. by rewrite H1, H2. }
  rewrite !Hz by done.
  split; [destruct (fst (main fs pf args w)); lia|]. split; [lia|].
  intros key Hin.
  apply in_app_or in Hin as [Hin | Hin].
  { simpl in Hin. repeat (destruct Hin as [Hin | Hin]; [discriminate|]). done. }
  apply in_app_or in Hin as [Hin | Hin].
  { rewrite List.Forall_forall in Hev. exact (Hev _ Hin). }
  destruct (fst (main fs pf args w)); simpl in Hin;
    repeat (destruct Hin as [Hin | Hin]; [discriminate|]); done.
Qed.

(** ** The name of an image file *)

Lemma length_append s t :
  String.length (s +:+ t) = (String.length s + String.length t)%nat.
Proof.
  induction s as [|a s IH]; [reflexivity|]. rewrite append_cons. simpl. by rewrite IH.
Qed.

Lemma hex_digit_chars c z :
  contains c "0123456789abcdef" = false -> Ascii.eqb (SHA256.hex_digit z) c = false.
Proof.
  intros H. orb_false H. unfold SHA256.hex_digit.
  generalize (Z.to_nat (z mod 16)). intros n.
  do 16 (destruct n as [|n]; [simpl; assumption|]).
  destruct n; simpl; assumption.
Qed.

Lemma hex8_chars c w :
  contains c "0123456789abcdef" = false -> contains c (SHA256.hex8 w) = false.
Proof.
  intros H. unfold SHA256.hex8. cbn [contains].
  rewrite !hex_digit_chars by exact H. reflexivity.
Qed.

Transparent hexdigest.

Lemma hexdigest_chars c h :
  contains c "0123456789abcdef" = false -> contains c (hexdigest h) = false.
Proof.
  intros H. unfold hexdigest, SHA256.hex.
  rewrite !contains_app, !hex8_chars by exact H. reflexivity.
Qed.

Lemma take_16_length h : String.length (Str.take 16 (hexdigest h)) = 16%nat.
Proof.
  unfold Str.take, hexdigest, SHA256.hex, SHA256.hex8.
  cbv [String.append String.substring String.length]. reflexivity.
Qed.

Opaque hexdigest.

Lemma undeclared_extension_shape mime ct u :
  undeclared mime ct ->
  exists rest, guess_extension mime ct u = String "." rest /\ contains "/" rest = false.
Proof.
  intros Hu. rewrite (guess_extension_undeclared mime ct u Hu).
  destruct (suffix_shape u) as [-> | (rest & -> & Hrest)]; [by exists "img" | by exists rest].
Qed.

(** X16. An image file is named by sixteen lowercase hexadecimal digits and the
    extension. When the extension has no slash, which is so whenever it
    comes from the URL or is the default, the file lies in the image
    directory itself, whatever the URL is. *)
Theorem image_file_lies_in_image_dir
    (mime : string -> option string) (r : Response) (image_dir : string) (data : list byte) :
  String.length (Str.take 16 (digest_of data)) = 16%nat /\
  (forall c, contains c "0123456789abcdef" = false ->
             contains c (Str.take 16 (digest_of data)) = false) /\
  (contains "/" (guess_extension mime (content_type_of r) (url r)) = false ->
   Path.name (image_path mime r image_dir data)
   = Str.take 16 (digest_of data) +:+ guess_extension mime (content_type_of r) (url r)) /\
  (undeclared mime (content_type_of r) ->
   contains "/" (guess_extension mime (content_type_of r) (url r)) = false).
Proof.
  assert (Hlen : String.length (Str.take 16 (digest_of data)) = 16%nat)
    by apply take_16_length.
  assert (Hhex : forall c, contains c "0123456789abcdef" = false ->
                           contains c (Str.take 16 (digest_of data)) = false).
  { intros c Hc. unfold Str.take. apply contains_substring. by apply hexdigest_chars. }
  split; [exact Hlen|]. split; [exact Hhex|]. split.
  - intros Hext. unfold image_path. apply name_of_join.
    + rewrite contains_app, Hext, Hhex by reflexivity. reflexivity.
    + intros Heq. apply (f_equal String.length) in Heq.
      rewrite length_append, Hlen in Heq. discriminate.
    + intros Heq. apply (f_equal String.length) in Heq.
      rewrite length_append, Hlen in Heq. simpl in Heq. lia.
  - intros Hu.
    destruct (undeclared_extension_shape mime (content_type_of r) (url r) Hu)
      as (rest & -> & Hrest).
    cbn [contains]. by rewrite Hrest.
Qed.

Lemma interceptor_step_disk mime fs r dir w :
  disk (snd (save_response_images mime fs r dir w)) = disk w \/
  exists b,
    is_image_response r /\ body r = Ok b /\ b <> [] /\
    disk (snd (save_response_images mime fs r dir w))
    = <[image_path mime r dir b := b]> (disk w).
Proof.
  destruct (save_cases mime fs r dir w) as [H | (b & Hi & Hb & Hne & Hfresh)];
    [left; by rewrite H|].
  rewrite (save_fresh_digest mime fs r dir w b Hi Hb Hne Hfresh).
  destruct (fs (disk w) (image_path mime r dir b) b); cbn [snd disk]; [|by left].
  right. by exists b.
Qed.

(** X17. When no write fails, every file the interceptor leaves on the disk
    holds the body of one of the image responses and is named after it:
    the name starts with the first sixteen digits of the digest of the
    content the file holds. *)
Theorem image_files_are_named_by_their_content
    (mime : string -> option string)
    (fs : gmap string (list byte) -> string -> list byte -> bool)
    (image_dir : string) (responses : list Response) (w : World)
    (path : string) (data : list byte) :
  (forall d p x, fs d p x = true) ->
  disk (run_interceptors mime fs image_dir responses w) !! path = Some data ->
  disk w !! path = Some data \/
  exists r,
    In r responses /\ is_image_response r /\ body r = Ok data /\ data <> [] /\
    path = Path.join image_dir
             (Str.take 16 (digest_of data)
              +:+ guess_extension mime (content_type_of r) (url r)).
Proof.
  intros Hfs. revert w. induction responses as [|r rs IH]; intros w; [by left|].
  change (run_interceptors mime fs image_dir (r :: rs) w)
    with (run_interceptors mime fs image_dir rs (snd (save_response_images mime fs r image_dir w))).
  intros H. apply IH in H as [H | (r' & Hin & Hr')].
  - destruct (interceptor_step_disk mime fs r image_dir w)
      as [Hd | (b & Hi & Hb & Hne & Hd)]; rewrite Hd in H; [by left|].
    destruct (decide (image_path mime r image_dir b = path)) as [Heq|Hneq].
    + subst path. rewrite lookup_insert_eq in H. injection H as ->.
      right. exists r. split; [by left|]. exact (conj Hi (conj Hb (conj Hne eq_refl))).
    + rewrite lookup_insert_ne in H by done. by left.
  - right. exists r'. split; [by right | exact Hr'].
Qed.

Lemma image_files_are_named_by_their_content_witness :
  disk initial_world !! image_path cpython_guess_extension
                          (image_response "https://cdn.example/covers/a.png" "image/png" body50)
                          "output/images" body50 = Some body50 \/
  exists r,
    In r served_twice /\ is_image_response r /\ body r = Ok body50 /\ body50 <> [] /\
    image_path cpython_guess_extension
      (image_response "https://cdn.example/covers/a.png" "image/png" body50)
      "output/images" body50
    = Path.join "output/images"
        (Str.take 16 (digest_of body50)
         +:+ guess_extension cpython_guess_extension (content_type_of r) (url r)).
Proof.
  apply (image_files_are_named_by_their_content cpython_guess_extension fs_accept_all
           "output/images" served_twice initial_world); [reflexivity|].
  vm_compute. reflexivity.
Defined.

(** * The extension of an image file, step by step *)

(** ** What [strip] removes *)













(** ** What [Path(url).suffix] is *)










(** White space that is not ASCII is stripped as well: a no-break space
    after the type, an ideographic space before it. *)
Example extension_unicode_space :
  guess_extension cpython_guess_extension
    ("image/png" +:+ Str.utf8 [194; 160]%nat) "https://cdn.example/covers/a.jpg" = ".png" /\
  guess_extension cpython_guess_extension
    (Str.utf8 [227; 128; 128]%nat +:+ "image/gif ;q=1") "https://cdn.example/covers/a" = ".gif" /\
  Str.strip (Str.utf8 [226; 128; 120]%nat) = Str.utf8 [226; 128; 120]%nat.
Proof. vm_compute. repeat split. Qed.
